(** * helm-push-artifactory: the push command (cmd/push/main.go)

    A shallow embedding of the command frontend of the plugin: the
    environment fallbacks ([setFieldsFromEnv]), the push flow ([push]),
    the two response handlers and the Artifactory error decoder
    ([getArtifactoryError]), followed by the properties the
    specification states about them.

    Go values are modelled as follows: [string] and [[]byte] are Rocq
    strings (sequences of bytes), [int] is [Z], an [error] result is an
    [option] of a non-nil error value ([None] is [nil]), a
    [(value, error)] result is a [result].  The packages the command calls
    into (helm, repo, artifactory, the standard library's file system and
    network) are collaborators of the flow: they are the fields of the
    record [Externals], and every call to one of them is recorded in a
    trace. *)

From Stdlib Require Import ZArith Ascii String List Bool.
From Stdlib Require Import DecimalString DecimalPos DecimalZ.
From stdpp Require Import base strings gmap list.

Local Open Scope Z_scope.
Local Open Scope char_scope.
Local Open Scope string_scope.

(** ** Errors and results *)

(** A non-nil Go [error] value.  [ErrorString] is what [errors.New] and
    [fmt.Errorf] build; the other constructors are the errors of the
    collaborators that the command passes through unchanged. *)
Inductive err : Type :=
| ErrorString (msg : string)
| SyntaxError
| UnmarshalTypeError
| UnknownRepository (name : string)
| ExternalError (pkg : string) (msg : string).

(** Go's [error] interface value: [None] is [nil]. *)
Definition error : Type := option err.

(** [e.Error()]: the text of [ErrorString] is the one main.go builds; the
    texts of the other errors belong to the packages that build them and
    stand for them here. *)
Definition Error (e : err) : string :=
  match e with
  | ErrorString m => m
  | SyntaxError => "invalid character in JSON input"
  | UnmarshalTypeError => "json: cannot unmarshal value"
  | UnknownRepository n => "UnknownRepository: " +:+ n
  | ExternalError _ m => m
  end.

(** A Go [(T, error)] pair of which exactly one side is meaningful. *)
Inductive result (A : Type) : Type :=
| Ok (a : A)
| Err (e : err).
Arguments Ok {A} a.
Arguments Err {A} e.

(** ** Bytes and strings *)

Definition byteval (c : ascii) : N := N_of_ascii c.

Definition in_range (lo hi : N) (c : ascii) : bool :=
  ((lo <=? byteval c) && (byteval c <=? hi))%N.

Definition is_digit (c : ascii) : bool := in_range 48 57 c.

Definition byte_eqb (a b : ascii) : bool := (byteval a =? byteval b)%N.

Definition byte_of (n : N) : ascii := ascii_of_N n.

(** The double quote. *)
Definition dquote : ascii := byte_of 34.

(** [strconv.Itoa] / the verb [%d]: the decimal numeral of an [int]. *)
Definition itoa (n : Z) : string := NilZero.string_of_int (Z.to_int n).

(** [strings.HasPrefix]. *)
Definition HasPrefix (s p : string) : bool := String.prefix p s.

(** [strings.Contains], as a proposition. *)
Definition Contains (s sub : string) : Prop :=
  exists pre post, s = pre +:+ sub +:+ post.

(** ** encoding/json, as far as [errorResponse] needs it

    [json.Unmarshal] first checks that the whole input is one valid JSON
    text and then stores it into the target.  The scanner below is, like
    Go's, a machine that reads the input byte by byte with a stack of the
    open containers; it builds the value that the second phase stores.
    (The limit that later Go releases put on the nesting depth is not
    part of it.) *)

#[local] Unset Elimination Schemes.
Inductive json : Type :=
| JNull
| JBool (b : bool)
| JNumber (lit : list ascii)
| JString (s : string)
| JArray (elems : list json)
| JObject (members : list (string * json)).
#[local] Set Elimination Schemes.

Inductive token : Type :=
| TLBrace | TRBrace | TLBracket | TRBracket | TColon | TComma
| TString (raw : list ascii)
| TWord (w : list ascii).

Inductive lexState : Type :=
| LIdle
| LInString (acc : list ascii) (esc : bool)
| LInWord (acc : list ascii).

(** Space, tab, carriage return, line feed. *)
Definition isSpace (c : ascii) : bool :=
  let n := byteval c in ((n =? 32) || (n =? 9) || (n =? 13) || (n =? 10))%N.

(** The bytes a number or one of [true], [false], [null] is made of. *)
Definition isWordByte (c : ascii) : bool :=
  is_digit c || in_range 97 122 c || in_range 65 90 c
  || byte_eqb c "-" || byte_eqb c "+" || byte_eqb c ".".

Definition punct (c : ascii) : option token :=
  if byte_eqb c "{" then Some TLBrace
  else if byte_eqb c "}" then Some TRBrace
  else if byte_eqb c "[" then Some TLBracket
  else if byte_eqb c "]" then Some TRBracket
  else if byte_eqb c ":" then Some TColon
  else if byte_eqb c "," then Some TComma
  else None.

(** One byte read outside of a string and outside of a word. *)
Definition lexIdle (out : list token) (c : ascii)
  : option (lexState * list token) :=
  if isSpace c then Some (LIdle, out)
  else if byte_eqb c dquote then Some (LInString [] false, out)
  else if isWordByte c then Some (LInWord [c], out)
  else match punct c with
       | Some t => Some (LIdle, t :: out)
       | None => None
       end.

Definition lexStep (st : lexState) (out : list token) (c : ascii)
  : option (lexState * list token) :=
  match st with
  | LIdle => lexIdle out c
  | LInString acc true => Some (LInString (c :: acc) false, out)
  | LInString acc false =>
      if byte_eqb c dquote then Some (LIdle, TString (rev acc) :: out)
      else if byte_eqb c "\" then Some (LInString (c :: acc) true, out)
      else if (byteval c <? 32)%N then None
      else Some (LInString (c :: acc) false, out)
  | LInWord acc =>
      if isWordByte c then Some (LInWord (c :: acc), out)
      else lexIdle (TWord (rev acc) :: out) c
  end.

Fixpoint lex (st : lexState) (out : list token) (bs : list ascii)
  : option (list token) :=
  match bs with
  | [] =>
      match st with
      | LIdle => Some (rev out)
      | LInWord acc => Some (rev (TWord (rev acc) :: out))
      | LInString _ _ => None
      end
  | c :: bs' =>
      match lexStep st out c with
      | Some (st', out') => lex st' out' bs'
      | None => None
      end
  end.

(** *** Numbers *)

Fixpoint skip_digits (bs : list ascii) : list ascii :=
  match bs with
  | c :: r => if is_digit c then skip_digits r else bs
  | [] => []
  end.

Definition digits1 (bs : list ascii) : option (list ascii) :=
  match bs with
  | c :: r => if is_digit c then Some (skip_digits r) else None
  | [] => None
  end.

Definition number_int (bs : list ascii) : option (list ascii) :=
  match bs with
  | c :: r =>
      if byte_eqb c "0" then Some r
      else if in_range 49 57 c then Some (skip_digits r)
      else None
  | [] => None
  end.

Definition number_frac (bs : list ascii) : option (list ascii) :=
  match bs with
  | c :: r => if byte_eqb c "." then digits1 r else Some bs
  | [] => Some []
  end.

Definition number_exp (bs : list ascii) : option (list ascii) :=
  match bs with
  | c :: r =>
      if byte_eqb c "e" || byte_eqb c "E" then
        match r with
        | s :: r' =>
            if byte_eqb s "+" || byte_eqb s "-" then digits1 r' else digits1 r
        | [] => None
        end
      else Some bs
  | [] => Some []
  end.

Definition strip_minus (bs : list ascii) : bool * list ascii :=
  match bs with
  | c :: r => if byte_eqb c "-" then (true, r) else (false, bs)
  | [] => (false, [])
  end.

(** The JSON number grammar: an optional minus sign; then a single zero
    or a non-zero digit followed by digits; then optionally a point and at
    least one digit; then optionally an exponent mark, an optional sign
    and at least one digit. *)
Definition valid_number (bs : list ascii) : bool :=
  match number_int (snd (strip_minus bs)) with
  | Some r1 =>
      match number_frac r1 with
      | Some r2 =>
          match number_exp r2 with
          | Some [] => true
          | _ => false
          end
      | None => false
      end
  | None => false
  end.

Fixpoint digits_value (acc : Z) (bs : list ascii) : option Z :=
  match bs with
  | [] => Some acc
  | c :: r =>
      if is_digit c
      then digits_value (10 * acc + Z.of_N (byteval c - 48)) r
      else None
  end.

(** [strconv.ParseInt(s, 10, 64)] on a JSON number literal: only an
    optional sign and digits, and the value must fit an [int64]. *)
Definition ParseInt64 (lit : list ascii) : option Z :=
  let '(neg, ds) := strip_minus lit in
  match ds with
  | [] => None
  | _ =>
      match digits_value 0 ds with
      | Some n =>
          let v := if neg then - n else n in
          if ((- 2 ^ 63 <=? v) && (v <=? 2 ^ 63 - 1))%Z then Some v else None
      | None => None
      end
  end.

(** *** String literals *)

Definition hexval (c : ascii) : option N :=
  if is_digit c then Some (byteval c - 48)%N
  else if in_range 97 102 c then Some (byteval c - 87)%N
  else if in_range 65 70 c then Some (byteval c - 55)%N
  else None.

Definition hex4 (a b c d : ascii) : option N :=
  match hexval a, hexval b, hexval c, hexval d with
  | Some x, Some y, Some z, Some w => Some (((x * 16 + y) * 16 + z) * 16 + w)%N
  | _, _, _, _ => None
  end.

(** [getu4]: the byteval unit of a leading [\uXXXX], if there is one. *)
Definition getu4 (bs : list ascii) : option N :=
  match bs with
  | b0 :: u :: a :: b :: c :: d :: _ =>
      if byte_eqb b0 "\" && byte_eqb u "u" then hex4 a b c d else None
  | _ => None
  end.

Definition ReplacementChar : N := 0xFFFD.

Definition IsSurrogate (r : N) : bool := ((0xD800 <=? r) && (r <? 0xE000))%N.

(** [utf16.DecodeRune]. *)
Definition utf16_DecodeRune (r1 r2 : N) : N :=
  if ((0xD800 <=? r1) && (r1 <? 0xDC00) && (0xDC00 <=? r2) && (r2 <? 0xE000))%N
  then ((r1 - 0xD800) * 1024 + (r2 - 0xDC00) + 0x10000)%N
  else ReplacementChar.

Definition cont6 (r : N) (shift : N) : ascii :=
  byte_of (128 + N.land (N.shiftr r shift) 63).

(** [utf8.EncodeRune]. *)
Definition EncodeRune (r : N) : list ascii :=
  let r := if IsSurrogate r || (0x10FFFF <? r)%N then ReplacementChar else r in
  if (r <=? 0x7F)%N then [byte_of r]
  else if (r <=? 0x7FF)%N then [byte_of (192 + N.shiftr r 6); cont6 r 0]
  else if (r <=? 0xFFFF)%N then
    [byte_of (224 + N.shiftr r 12); cont6 r 6; cont6 r 0]
  else [byte_of (240 + N.shiftr r 18); cont6 r 12; cont6 r 6; cont6 r 0].

(** The width [utf8.DecodeRune] reports for the sequence that starts with
    the byte [c] (at least 128) and goes on with [r]; an ill-formed or
    truncated sequence has width 1 and decodes to [ReplacementChar]. *)
Definition utf8_width (c : ascii) (r : list ascii) : nat :=
  let n := byteval c in
  if in_range 0xC2 0xDF c then
    match r with
    | c2 :: _ => if in_range 0x80 0xBF c2 then 2 else 1
    | _ => 1
    end
  else if in_range 0xE0 0xEF c then
    let '(lo, hi) := if (n =? 0xE0)%N then (0xA0, 0xBF)%N
                     else if (n =? 0xED)%N then (0x80, 0x9F)%N
                     else (0x80, 0xBF)%N in
    match r with
    | c2 :: c3 :: _ =>
        if in_range lo hi c2 && in_range 0x80 0xBF c3 then 3 else 1
    | _ => 1
    end
  else if in_range 0xF0 0xF4 c then
    let '(lo, hi) := if (n =? 0xF0)%N then (0x90, 0xBF)%N
                     else if (n =? 0xF4)%N then (0x80, 0x8F)%N
                     else (0x80, 0xBF)%N in
    match r with
    | c2 :: c3 :: c4 :: _ =>
        if in_range lo hi c2 && in_range 0x80 0xBF c3 && in_range 0x80 0xBF c4
        then 4 else 1
    | _ => 1
    end
  else 1%nat.

Definition simple_escape (e : ascii) : option ascii :=
  if byte_eqb e dquote || byte_eqb e "\" || byte_eqb e "/" then Some e
  else if byte_eqb e "b" then Some (byte_of 8)
  else if byte_eqb e "f" then Some (byte_of 12)
  else if byte_eqb e "n" then Some (byte_of 10)
  else if byte_eqb e "r" then Some (byte_of 13)
  else if byte_eqb e "t" then Some (byte_of 9)
  else None.

(** [unquote]: the contents of a string literal (the bytes between the
    quotes) turned into the string it denotes.  [copy] counts the bytes
    of a well-formed UTF-8 sequence still to be copied unchanged. *)
Fixpoint unquoteBytes (copy : nat) (bs : list ascii) : option (list ascii) :=
  match bs with
  | [] => Some []
  | c :: r =>
      match copy with
      | S k => cons c <$> unquoteBytes k r
      | O =>
          if byte_eqb c "\" then
            match r with
            | [] => None
            | e :: r1 =>
                if byte_eqb e "u" then
                  match r1 with
                  | h1 :: h2 :: h3 :: h4 :: r2 =>
                      match hex4 h1 h2 h3 h4 with
                      | None => None
                      | Some rr =>
                          if IsSurrogate rr then
                            match r2 with
                            | _ :: _ :: _ :: _ :: _ :: _ :: r3 =>
                                match getu4 r2 with
                                | Some rr1 =>
                                    let dec := utf16_DecodeRune rr rr1 in
                                    if (dec =? ReplacementChar)%N
                                    then app (EncodeRune ReplacementChar)
                                           <$> unquoteBytes 0 r2
                                    else app (EncodeRune dec)
                                           <$> unquoteBytes 0 r3
                                | None =>
                                    app (EncodeRune ReplacementChar)
                                      <$> unquoteBytes 0 r2
                                end
                            | _ =>
                                app (EncodeRune ReplacementChar)
                                  <$> unquoteBytes 0 r2
                            end
                          else app (EncodeRune rr) <$> unquoteBytes 0 r2
                      end
                  | _ => None
                  end
                else
                  match simple_escape e with
                  | Some x => cons x <$> unquoteBytes 0 r1
                  | None => None
                  end
            end
          else if byte_eqb c dquote || (byteval c <? 32)%N then None
          else if (byteval c <? 128)%N then cons c <$> unquoteBytes 0 r
          else
            match utf8_width c r with
            | S (S k) => cons c <$> unquoteBytes (S k) r
            | _ => app (EncodeRune ReplacementChar) <$> unquoteBytes 0 r
            end
      end
  end.

Definition unquote (raw : list ascii) : option string :=
  string_of_list_ascii <$> unquoteBytes 0 raw.

(** *** Values *)

Definition word_value (w : list ascii) : option json :=
  let s := string_of_list_ascii w in
  if String.eqb s "true" then Some (JBool true)
  else if String.eqb s "false" then Some (JBool false)
  else if String.eqb s "null" then Some JNull
  else if valid_number w then Some (JNumber w)
  else None.

(** An open container: an array with the elements read so far, an object
    with the members read so far, or the key whose value is being read
    (innermost first, most recent first). *)
Inductive frame : Type :=
| FArray (done : list json)
| FObject (done : list (string * json))
| FKey (key : string).

Inductive mode : Type :=
| MValue          (* a value starts here *)
| MArrayFirst     (* after an opening bracket: a value or the closing one *)
| MObjectFirst    (* after an opening brace: a key or the closing one *)
| MObjectKey      (* after a comma in an object: a key *)
| MObjectColon (key : string)  (* after a key: the colon *)
| MAfter          (* after a value in a container: a comma or the closer *)
| MEnd (v : json).  (* the top-level value is complete *)

(** A finished value goes to the innermost open container. *)
Definition deliver (v : json) (st : list frame) : option (mode * list frame) :=
  match st with
  | [] => Some (MEnd v, [])
  | FArray es :: st' => Some (MAfter, FArray (v :: es) :: st')
  | FKey k :: FObject ms :: st' => Some (MAfter, FObject ((k, v) :: ms) :: st')
  | _ => None
  end.

Definition beginValue (t : token) (st : list frame)
  : option (mode * list frame) :=
  match t with
  | TLBracket => Some (MArrayFirst, FArray [] :: st)
  | TLBrace => Some (MObjectFirst, FObject [] :: st)
  | TString raw =>
      match unquote raw with
      | Some s => deliver (JString s) st
      | None => None
      end
  | TWord w =>
      match word_value w with
      | Some v => deliver v st
      | None => None
      end
  | _ => None
  end.

Definition beginKey (t : token) (st : list frame)
  : option (mode * list frame) :=
  match t with
  | TString raw =>
      match unquote raw with
      | Some k => Some (MObjectColon k, st)
      | None => None
      end
  | _ => None
  end.

Definition parseStep (m : mode) (st : list frame) (t : token)
  : option (mode * list frame) :=
  match m, t, st with
  | MValue, _, _ => beginValue t st
  | MArrayFirst, TRBracket, FArray [] :: st' => deliver (JArray []) st'
  | MArrayFirst, _, _ => beginValue t st
  | MObjectFirst, TRBrace, FObject [] :: st' => deliver (JObject []) st'
  | MObjectFirst, _, _ => beginKey t st
  | MObjectKey, _, _ => beginKey t st
  | MObjectColon k, TColon, _ => Some (MValue, FKey k :: st)
  | MAfter, TComma, FArray _ :: _ => Some (MValue, st)
  | MAfter, TRBracket, FArray es :: st' => deliver (JArray (rev es)) st'
  | MAfter, TComma, FObject _ :: _ => Some (MObjectKey, st)
  | MAfter, TRBrace, FObject ms :: st' => deliver (JObject (rev ms)) st'
  | _, _, _ => None
  end.

Fixpoint parseTokens (m : mode) (st : list frame) (ts : list token)
  : option json :=
  match ts with
  | [] => match m with MEnd v => Some v | _ => None end
  | t :: ts' =>
      match parseStep m st t with
      | Some (m', st') => parseTokens m' st' ts'
      | None => None
      end
  end.

(** The value a JSON text denotes; [None] is a syntax error. *)
Definition parseJSON (b : string) : option json :=
  match lex LIdle [] (list_ascii_of_string b) with
  | Some ts => parseTokens MValue [] ts
  | None => None
  end.

(** *** Storing a value into [errorResponse] *)

Record artifactoryError : Type := {
  Status : Z;
  Message : string
}.

Record errorResponse : Type := {
  Errors : list artifactoryError
}.

(** A key names a struct field when the two are equal after case folding:
    ASCII letters are folded to upper case, and so are the two non-ASCII
    letters that fold to ASCII ones, U+017F (long s) and U+212A (Kelvin
    sign). *)
Fixpoint foldName (bs : list ascii) : list ascii :=
  match bs with
  | [] => []
  | c :: r =>
      if in_range 97 122 c then byte_of (byteval c - 32) :: foldName r
      else
        match r with
        | c2 :: r2 =>
            if ((byteval c =? 0xC5) && (byteval c2 =? 0xBF))%N
            then "S"%char :: foldName r2
            else
              match r2 with
              | c3 :: r3 =>
                  if ((byteval c =? 0xE2) && (byteval c2 =? 0x84)
                      && (byteval c3 =? 0xAA))%N
                  then "K"%char :: foldName r3
                  else c :: foldName r
              | [] => c :: foldName r
              end
        | [] => [c]
        end
  end.

Definition fieldIs (name key : string) : bool :=
  String.eqb (string_of_list_ascii (foldName (list_ascii_of_string key)))
             (string_of_list_ascii (foldName (list_ascii_of_string name))).

(** The field [Status int], tagged [status]: a number that is an [int64]; [null]
    leaves the field as it is; anything else is a type error. *)
Definition storeStatus (e : artifactoryError) (v : json)
  : result artifactoryError :=
  match v with
  | JNull => Ok e
  | JNumber lit =>
      match ParseInt64 lit with
      | Some n => Ok {| Status := n; Message := Message e |}
      | None => Err UnmarshalTypeError
      end
  | _ => Err UnmarshalTypeError
  end.

(** The field [Message string], tagged [message]. *)
Definition storeMessage (e : artifactoryError) (v : json)
  : result artifactoryError :=
  match v with
  | JNull => Ok e
  | JString s => Ok {| Status := Status e; Message := s |}
  | _ => Err UnmarshalTypeError
  end.

(** The members of an object, in order, stored into an [artifactoryError];
    keys that name no field are skipped. *)
Fixpoint storeErrorFields (e : artifactoryError) (ms : list (string * json))
  : result artifactoryError :=
  match ms with
  | [] => Ok e
  | (k, v) :: ms' =>
      let r := if fieldIs "status" k then storeStatus e v
               else if fieldIs "message" k then storeMessage e v
               else Ok e in
      match r with
      | Ok e' => storeErrorFields e' ms'
      | Err x => Err x
      end
  end.

Definition storeArtifactoryError (e : artifactoryError) (v : json)
  : result artifactoryError :=
  match v with
  | JNull => Ok e
  | JObject ms => storeErrorFields e ms
  | _ => Err UnmarshalTypeError
  end.

Definition zeroArtifactoryError : artifactoryError :=
  {| Status := 0; Message := EmptyString |}.

(** A slice of [artifactoryError]: the elements its array holds and how
    many of them the slice shows.  An array is stored element by element
    into what the slice's array already holds, which matters only when
    the key [errors] occurs more than once. *)
Record errorSlice : Type := {
  backing : list artifactoryError;
  visible : nat
}.

Definition nilSlice : errorSlice := {| backing := []; visible := 0 |}.

Fixpoint storeElements (old : list artifactoryError) (vs : list json)
  : result (list artifactoryError) :=
  match vs with
  | [] => Ok old
  | v :: vs' =>
      let '(e, old') := match old with
                        | e :: old' => (e, old')
                        | [] => (zeroArtifactoryError, [])
                        end in
      match storeArtifactoryError e v with
      | Ok e' =>
          match storeElements old' vs' with
          | Ok es => Ok (e' :: es)
          | Err x => Err x
          end
      | Err x => Err x
      end
  end.

(** The field [Errors] (a slice of [artifactoryError]), tagged [errors]. *)
Definition storeErrors (sl : errorSlice) (v : json) : result errorSlice :=
  match v with
  | JNull => Ok nilSlice
  | JArray [] => Ok nilSlice
  | JArray vs =>
      match storeElements (backing sl) vs with
      | Ok es => Ok {| backing := es; visible := length vs |}
      | Err x => Err x
      end
  | _ => Err UnmarshalTypeError
  end.

Fixpoint storeResponseFields (sl : errorSlice) (ms : list (string * json))
  : result errorSlice :=
  match ms with
  | [] => Ok sl
  | (k, v) :: ms' =>
      let r := if fieldIs "errors" k then storeErrors sl v else Ok sl in
      match r with
      | Ok sl' => storeResponseFields sl' ms'
      | Err x => Err x
      end
  end.

(** [json.Unmarshal(b, &response)] for [response := errorResponse{}].  The
    decoder reports a type error only after it has stored the rest; here
    the result is then the error alone, since the caller looks at the
    error first. *)
Definition json_Unmarshal (b : string) : result errorResponse :=
  match parseJSON b with
  | None => Err SyntaxError
  | Some JNull => Ok {| Errors := [] |}
  | Some (JObject ms) =>
      match storeResponseFields nilSlice ms with
      | Ok sl => Ok {| Errors := take (visible sl) (backing sl) |}
      | Err x => Err x
      end
  | Some _ => Err UnmarshalTypeError
  end.

(** ** The error decoder *)

(** The error of the first return statement of [getArtifactoryError]. *)
Definition parseFailure (b : string) (code : Z) : err :=
  ErrorString (itoa code +:+ ": could not properly parse response JSON: " +:+ b).

Definition getArtifactoryError (b : string) (code : Z) : error :=
  match json_Unmarshal b with
  | Err _ => Some (parseFailure b code)
  | Ok response =>
      match Errors response with
      | [] => Some (parseFailure b code)
      | e0 :: _ => Some (ErrorString (itoa code +:+ ": " +:+ Message e0))
      end
  end.

(** ** The command's fields *)

Record pushCmd : Type := {
  chartName : string;
  chartVersion : string;
  appVersion : string;
  repository : string;
  path : string;
  username : string;
  password : string;
  accessToken : string;
  apiKey : string;
  caFile : string;
  certFile : string;
  keyFile : string;
  insecureSkipVerify : bool;
  skipReindex : bool;
  overrides : list string
}.

(** The fields as [newPushCmd] registers them with the flag set: every
    flag's default is the zero value of its field. *)
Definition flagDefaults : pushCmd :=
  {| chartName := EmptyString; chartVersion := EmptyString;
     appVersion := EmptyString; repository := EmptyString;
     path := EmptyString; username := EmptyString; password := EmptyString;
     accessToken := EmptyString; apiKey := EmptyString;
     caFile := EmptyString; certFile := EmptyString; keyFile := EmptyString;
     insecureSkipVerify := false; skipReindex := false; overrides := [] |}.

(** Assignments to one field. *)
Definition set_chartName (v : string) (p : pushCmd) : pushCmd :=
  {| chartName := v; chartVersion := chartVersion p;
     appVersion := appVersion p; repository := repository p;
     path := path p; username := username p; password := password p;
     accessToken := accessToken p; apiKey := apiKey p; caFile := caFile p;
     certFile := certFile p; keyFile := keyFile p;
     insecureSkipVerify := insecureSkipVerify p;
     skipReindex := skipReindex p; overrides := overrides p |}.

Definition set_repository (v : string) (p : pushCmd) : pushCmd :=
  {| chartName := chartName p; chartVersion := chartVersion p;
     appVersion := appVersion p; repository := v; path := path p;
     username := username p; password := password p;
     accessToken := accessToken p; apiKey := apiKey p; caFile := caFile p;
     certFile := certFile p; keyFile := keyFile p;
     insecureSkipVerify := insecureSkipVerify p;
     skipReindex := skipReindex p; overrides := overrides p |}.

Definition set_path (v : string) (p : pushCmd) : pushCmd :=
  {| chartName := chartName p; chartVersion := chartVersion p;
     appVersion := appVersion p; repository := repository p; path := v;
     username := username p; password := password p;
     accessToken := accessToken p; apiKey := apiKey p; caFile := caFile p;
     certFile := certFile p; keyFile := keyFile p;
     insecureSkipVerify := insecureSkipVerify p;
     skipReindex := skipReindex p; overrides := overrides p |}.

Definition set_username (v : string) (p : pushCmd) : pushCmd :=
  {| chartName := chartName p; chartVersion := chartVersion p;
     appVersion := appVersion p; repository := repository p;
     path := path p; username := v; password := password p;
     accessToken := accessToken p; apiKey := apiKey p; caFile := caFile p;
     certFile := certFile p; keyFile := keyFile p;
     insecureSkipVerify := insecureSkipVerify p;
     skipReindex := skipReindex p; overrides := overrides p |}.

Definition set_password (v : string) (p : pushCmd) : pushCmd :=
  {| chartName := chartName p; chartVersion := chartVersion p;
     appVersion := appVersion p; repository := repository p;
     path := path p; username := username p; password := v;
     accessToken := accessToken p; apiKey := apiKey p; caFile := caFile p;
     certFile := certFile p; keyFile := keyFile p;
     insecureSkipVerify := insecureSkipVerify p;
     skipReindex := skipReindex p; overrides := overrides p |}.

Definition set_accessToken (v : string) (p : pushCmd) : pushCmd :=
  {| chartName := chartName p; chartVersion := chartVersion p;
     appVersion := appVersion p; repository := repository p;
     path := path p; username := username p; password := password p;
     accessToken := v; apiKey := apiKey p; caFile := caFile p;
     certFile := certFile p; keyFile := keyFile p;
     insecureSkipVerify := insecureSkipVerify p;
     skipReindex := skipReindex p; overrides := overrides p |}.

Definition set_apiKey (v : string) (p : pushCmd) : pushCmd :=
  {| chartName := chartName p; chartVersion := chartVersion p;
     appVersion := appVersion p; repository := repository p;
     path := path p; username := username p; password := password p;
     accessToken := accessToken p; apiKey := v; caFile := caFile p;
     certFile := certFile p; keyFile := keyFile p;
     insecureSkipVerify := insecureSkipVerify p;
     skipReindex := skipReindex p; overrides := overrides p |}.

Definition set_caFile (v : string) (p : pushCmd) : pushCmd :=
  {| chartName := chartName p; chartVersion := chartVersion p;
     appVersion := appVersion p; repository := repository p;
     path := path p; username := username p; password := password p;
     accessToken := accessToken p; apiKey := apiKey p; caFile := v;
     certFile := certFile p; keyFile := keyFile p;
     insecureSkipVerify := insecureSkipVerify p;
     skipReindex := skipReindex p; overrides := overrides p |}.

Definition set_certFile (v : string) (p : pushCmd) : pushCmd :=
  {| chartName := chartName p; chartVersion := chartVersion p;
     appVersion := appVersion p; repository := repository p;
     path := path p; username := username p; password := password p;
     accessToken := accessToken p; apiKey := apiKey p; caFile := caFile p;
     certFile := v; keyFile := keyFile p;
     insecureSkipVerify := insecureSkipVerify p;
     skipReindex := skipReindex p; overrides := overrides p |}.

Definition set_keyFile (v : string) (p : pushCmd) : pushCmd :=
  {| chartName := chartName p; chartVersion := chartVersion p;
     appVersion := appVersion p; repository := repository p;
     path := path p; username := username p; password := password p;
     accessToken := accessToken p; apiKey := apiKey p; caFile := caFile p;
     certFile := certFile p; keyFile := v;
     insecureSkipVerify := insecureSkipVerify p;
     skipReindex := skipReindex p; overrides := overrides p |}.

Definition set_insecureSkipVerify (v : bool) (p : pushCmd) : pushCmd :=
  {| chartName := chartName p; chartVersion := chartVersion p;
     appVersion := appVersion p; repository := repository p;
     path := path p; username := username p; password := password p;
     accessToken := accessToken p; apiKey := apiKey p; caFile := caFile p;
     certFile := certFile p; keyFile := keyFile p;
     insecureSkipVerify := v; skipReindex := skipReindex p;
     overrides := overrides p |}.

Definition set_skipReindex (v : bool) (p : pushCmd) : pushCmd :=
  {| chartName := chartName p; chartVersion := chartVersion p;
     appVersion := appVersion p; repository := repository p;
     path := path p; username := username p; password := password p;
     accessToken := accessToken p; apiKey := apiKey p; caFile := caFile p;
     certFile := certFile p; keyFile := keyFile p;
     insecureSkipVerify := insecureSkipVerify p; skipReindex := v;
     overrides := overrides p |}.

(** [s == EmptyString] on Go strings. *)
Definition isEmpty (s : string) : bool := String.eqb s EmptyString.
Arguments isEmpty : simpl never.

(** ** Environment fallbacks *)

(** [strconv.ParseBool]: the value and the error; the value is [false]
    when the error is not nil. *)
Definition ParseBool (s : string) : bool * error :=
  if bool_decide (s ∈ ["1"; "t"; "T"; "TRUE"; "true"; "True"])
  then (true, None)
  else if bool_decide (s ∈ ["0"; "f"; "F"; "FALSE"; "false"; "False"])
  then (false, None)
  else (false, Some (ExternalError "strconv" "ParseBool: invalid syntax")).

(** [if v, ok := os.LookupEnv(name); ok && field == EmptyString { field = v }]. *)
Definition envString (env : gmap string string) (name : string)
    (get : pushCmd -> string) (set : string -> pushCmd -> pushCmd)
    (p : pushCmd) : pushCmd :=
  match env !! name with
  | Some v => if isEmpty (get p) then set v p else p
  | None => p
  end.

(** [if v, ok := os.LookupEnv(name); ok { field, _ = strconv.ParseBool(v) }]. *)
Definition envBool (env : gmap string string) (name : string)
    (set : bool -> pushCmd -> pushCmd) (p : pushCmd) : pushCmd :=
  match env !! name with
  | Some v => set (fst (ParseBool v)) p
  | None => p
  end.

Definition setFieldsFromEnv (env : gmap string string) (p : pushCmd) : pushCmd :=
  let p := envString env "HELM_REPO_PATH" path set_path p in
  let p := envString env "HELM_REPO_USERNAME" username set_username p in
  let p := envString env "HELM_REPO_PASSWORD" password set_password p in
  let p := envString env "HELM_REPO_ACCESS_TOKEN" accessToken set_accessToken p in
  let p := envString env "HELM_REPO_API_KEY" apiKey set_apiKey p in
  let p := envString env "HELM_REPO_CA_FILE" caFile set_caFile p in
  let p := envString env "HELM_REPO_CERT_FILE" certFile set_certFile p in
  let p := envString env "HELM_REPO_KEY_FILE" keyFile set_keyFile p in
  let p := envBool env "HELM_REPO_INSECURE" set_insecureSkipVerify p in
  let p := envBool env "HELM_REPO_SKIP_REINDEX" set_skipReindex p in
  p.

(** ** Stored repository entries *)

(** The fields of [helmrepo.Repo] that the command reads, and the name the
    entry is stored under. *)
Record Repo : Type := {
  Name : string;
  URL : string;
  Username : string;
  Password : string;
  CAFile : string;
  CertFile : string;
  KeyFile : string
}.

(** Modelled from the spec: [helmrepo.GetRepoByName] (package pkg/repo) is
    not among the sources.  It looks the name up in the local repository
    configuration and fails with [UnknownRepository] if no entry has that
    name. *)
Definition GetRepoByName (store : list Repo) (name : string) : result Repo :=
  match find (fun r => String.eqb (Name r) name) store with
  | Some r => Ok r
  | None => Err (UnknownRepository name)
  end.

(** The block [if repo != nil { ... }] of [push]: the stored entry gives
    the URL, and the credentials and TLS files that are still empty. *)
Definition seedFromRepo (repo : option Repo) (p : pushCmd) : pushCmd :=
  match repo with
  | None => p
  | Some r =>
      let p := set_repository (URL r) p in
      let p := if isEmpty (username p) then set_username (Username r) p else p in
      let p := if isEmpty (password p) then set_password (Password r) p else p in
      let p := if isEmpty (caFile p) then set_caFile (CAFile r) p else p in
      let p := if isEmpty (certFile p) then set_certFile (CertFile r) p else p in
      let p := if isEmpty (keyFile p) then set_keyFile (KeyFile r) p else p in
      p
  end.

(** ** The collaborators of the push flow *)

(** A loaded chart: the metadata the command reads or overrides, and the
    value overrides applied so far. *)
Record Chart : Type := {
  MetadataName : string;
  MetadataVersion : string;
  MetadataAppVersion : string;
  ValueOverrides : list string
}.

(** Modelled from the spec: [Chart.SetVersion] and [Chart.SetAppVersion]
    (package pkg/helm) are not among the sources; they replace the version
    and the app version of the chart's descriptor. *)
Definition SetVersion (c : Chart) (v : string) : Chart :=
  {| MetadataName := MetadataName c; MetadataVersion := v;
     MetadataAppVersion := MetadataAppVersion c;
     ValueOverrides := ValueOverrides c |}.

Definition SetAppVersion (c : Chart) (v : string) : Chart :=
  {| MetadataName := MetadataName c; MetadataVersion := MetadataVersion c;
     MetadataAppVersion := v; ValueOverrides := ValueOverrides c |}.

(** The options [push] passes to [artifactory.NewClient]; the client that
    comes back is identified with them. *)
Record Client : Type := {
  clientURL : string;
  clientPath : string;
  clientUsername : string;
  clientPassword : string;
  clientAccessToken : string;
  clientApiKey : string;
  clientCAFile : string;
  clientCertFile : string;
  clientKeyFile : string;
  clientInsecureSkipVerify : bool
}.

Definition clientOptions (p : pushCmd) : Client :=
  {| clientURL := repository p; clientPath := path p;
     clientUsername := username p; clientPassword := password p;
     clientAccessToken := accessToken p; clientApiKey := apiKey p;
     clientCAFile := caFile p; clientCertFile := certFile p;
     clientKeyFile := keyFile p;
     clientInsecureSkipVerify := insecureSkipVerify p |}.

(** An [*http.Response]: the status code, and what [ioutil.ReadAll] makes
    of the body (its bytes, or the error of a read that fails). *)
Record Response : Type := {
  StatusCode : Z;
  Body : result string
}.

(** What the packages outside of main.go answer.  The repository list and
    the process environment are data; the rest are the results of the
    calls the flow makes. *)
Record Externals : Type := {
  environ : gmap string string;
  repositories : list Repo;
  url_ParseRequestURI : string -> error;
  helm_GetChartByName : string -> result Chart;
  chart_OverrideValues : Chart -> list string -> result Chart;
  artifactory_NewClient : Client -> error;
  ioutil_TempDir : gset string -> string -> string -> result string;
  helm_CreateChartPackage : Chart -> string -> result string;
  client_UploadChartPackage : Client -> string -> string -> result Response;
  client_ReindexArtifactoryRepo : Client -> result Response
}.

(** ** Runs, traces and the file system *)

(** One call out of main.go, with what it returned. *)
Inductive event : Type :=
| EvParseRequestURI (rawurl : string) (r : error)
| EvGetRepoByName (name : string) (r : result Repo)
| EvGetChartByName (name : string) (r : result Chart)
| EvOverrideValues (overrides : list string) (r : result Chart)
| EvNewClient (options : Client) (r : error)
| EvTempDir (r : result string)
| EvCreateChartPackage (tmp : string) (r : result string)
| EvUploadChartPackage (name path : string) (r : result Response)
| EvReindexArtifactoryRepo (r : result Response)
| EvReadAll (r : result string)
| EvBodyClose
| EvPrintln (line : string)
| EvRemoveAll (dir : string).

(** The calls that go over the network: the HTTP PUT and the HTTP POST. *)
Definition isNetworkCall (ev : event) : bool :=
  match ev with
  | EvUploadChartPackage _ _ _ | EvReindexArtifactoryRepo _ => true
  | _ => false
  end.

Definition isRepoLookup (ev : event) : bool :=
  match ev with
  | EvGetRepoByName _ _ => true
  | _ => false
  end.

Definition isReindex (ev : event) : bool :=
  match ev with
  | EvReindexArtifactoryRepo _ => true
  | _ => false
  end.

(** What a piece of the flow leaves behind: its result, the paths that
    exist afterwards, and the calls it made, in order. *)
Record run (A : Type) : Type := Run {
  value : result A;
  files : gset string;
  events : list event
}.
Arguments Run {A} value files events.
Arguments value {A} r.
Arguments files {A} r.
Arguments events {A} r.

(** A piece of the flow, started from the paths that exist. *)
Definition M (A : Type) : Type := gset string -> run A.

Definition ret {A} (a : A) : M A := fun fs => Run (Ok a) fs [].

(** [return err] for a non-nil [err]. *)
Definition fail {A} (e : err) : M A := fun fs => Run (Err e) fs [].

Definition bind {A B} (m : M A) (k : A -> M B) : M B :=
  fun fs =>
    match m fs with
    | Run (Ok a) fs' evs =>
        match k a fs' with
        | Run v fs'' evs' => Run v fs'' (evs ++ evs')
        end
    | Run (Err e) fs' evs => Run (Err e) fs' evs
    end.

Notation "'let*' x := m 'in' k" := (bind m (fun x => k))
  (at level 10, x binder, m at level 100, k at level 200).

(** A call whose result is in [r]; the [if err != nil { return err }]
    that follows every call is the [Err] case of [bind]. *)
Definition call {A} (mk : result A -> event) (r : result A) : M A :=
  fun fs => Run r fs [mk r].

(** A call that returns only an [error]. *)
Definition callE (mk : error -> event) (r : error) : M unit :=
  fun fs => Run (match r with Some e => Err e | None => Ok tt end) fs [mk r].

(** [return e] for an [error] that may be nil. *)
Definition returnError (e : error) : M unit :=
  match e with
  | Some x => fail x
  | None => ret tt
  end.

Definition tell (ev : event) : M unit := fun fs => Run (Ok tt) fs [ev].

(** [defer f(); body]: [f] runs when [body] returns, however it returns,
    and what [f] returns is dropped. *)
Definition defer {A} (f : M unit) (body : M A) : M A :=
  fun fs =>
    match body fs with
    | Run v fs' evs =>
        match f fs' with
        | Run _ fs'' evs' => Run v fs'' (evs ++ evs')
        end
    end.

(** [path] is [dir] or lies under it. *)
Definition under (dir path : string) : Prop :=
  path = dir \/ HasPrefix path (dir +:+ "/") = true.

Global Instance under_dec dir path : Decision (under dir path).
Proof. unfold under. apply _. Defined.

(** [ioutil.TempDir(dir, prefix)]: on success the new directory exists. *)
Definition TempDir (ext : Externals) (dir pfx : string) : M string :=
  fun fs =>
    let r := ioutil_TempDir ext fs dir pfx in
    Run r (match r with Ok d => {[ d ]} ∪ fs | Err _ => fs end) [EvTempDir r].

(** [os.RemoveAll(dir)]: [dir] and everything under it is gone. *)
Definition RemoveAll (dir : string) : M unit :=
  fun fs => Run (Ok tt) (filter (fun q => ~ under dir q) fs) [EvRemoveAll dir].

(** [helm.CreateChartPackage(chart, tmp)]: on success the archive exists. *)
Definition CreateChartPackage (ext : Externals) (c : Chart) (tmp : string)
  : M string :=
  fun fs =>
    let r := helm_CreateChartPackage ext c tmp in
    Run r (match r with Ok f => {[ f ]} ∪ fs | Err _ => fs end)
        [EvCreateChartPackage tmp r].

(** ** The response handlers *)

Definition handleReindexResponse (resp : Response) : M unit :=
  defer (tell EvBodyClose)
    (let* b := call EvReadAll (Body resp) in
     if negb (StatusCode resp =? 200)%Z
     then returnError (getArtifactoryError b (StatusCode resp))
     else let* _ := tell (EvPrintln b) in ret tt).

Definition handlePushResponse (resp : Response) : M unit :=
  defer (tell EvBodyClose)
    (if negb (StatusCode resp =? 201)%Z
     then let* b := call EvReadAll (Body resp) in
          returnError (getArtifactoryError b (StatusCode resp))
     else let* _ := tell (EvPrintln "Done.") in ret tt).

(** ** The push flow *)

Definition item : Type := ascii * bool.

(** A pattern made of bytes, each of them required ([false]) or optional
    ([true]), matched at the start of the text: what the regular
    expression of [push] needs. *)
Fixpoint matchPrefix (pat : list item) (s : list ascii) : bool :=
  match pat with
  | [] => true
  | (c, optional) :: pat' =>
      match s with
      | x :: s' => byte_eqb x c && matchPrefix pat' s'
      | [] => false
      end
      || (optional && matchPrefix pat' s)
  end.

(** The pattern [^https?://]. *)
Definition urlPattern : list item :=
  [("h", false); ("t", false); ("t", false); ("p", false); ("s", true);
   (":", false); ("/", false); ("/", false)]%char.

(** [regexp.MustCompile(...).MatchString(p.repository)]. *)
Definition looksLikeURL (s : string) : bool :=
  matchPrefix urlPattern (list_ascii_of_string s).

Section Push.

Variable ext : Externals.

(** The first statement of [push]: a URL is only checked, a name is
    looked up; [repo] stays nil for a URL. *)
Definition resolveRepository (p : pushCmd) : M (option Repo) :=
  if looksLikeURL (repository p)
  then let* _ := callE (EvParseRequestURI (repository p))
                 (url_ParseRequestURI ext (repository p)) in
       ret None
  else let* r := call (EvGetRepoByName (repository p))
                 (GetRepoByName (repositories ext) (repository p)) in
       ret (Some r).

Definition push (p : pushCmd) : M unit :=
  let* repo := resolveRepository p in
  let* chart := call (EvGetChartByName (chartName p))
                (helm_GetChartByName ext (chartName p)) in
  let chart := if negb (isEmpty (chartVersion p))
               then SetVersion chart (chartVersion p) else chart in
  let chart := if negb (isEmpty (appVersion p))
               then SetAppVersion chart (appVersion p) else chart in
  let* chart := (if (0 <? length (overrides p))%nat
               then call (EvOverrideValues (overrides p))
                      (chart_OverrideValues ext chart (overrides p))
               else ret chart) in
  let p := seedFromRepo repo p in
  let client := clientOptions p in
  let* _ := callE (EvNewClient client) (artifactory_NewClient ext client) in
  let* tmp := TempDir ext EmptyString "helm-push-artifactory-" in
  defer (RemoveAll tmp)
    (let* chartPackagePath := CreateChartPackage ext chart tmp in
     let* resp := call (EvUploadChartPackage (MetadataName chart) chartPackagePath)
                  (client_UploadChartPackage ext client (MetadataName chart)
                     chartPackagePath) in
     let* _ := handlePushResponse resp in
     if skipReindex p then ret tt
     else
       let* resp := call EvReindexArtifactoryRepo
                    (client_ReindexArtifactoryRepo ext client) in
       handleReindexResponse resp).

(** The [RunE] function of the command: [p] holds the parsed flags. *)
Definition RunE (p : pushCmd) (args : list string) : M unit :=
  match args with
  | [a0; a1] =>
      let p := set_chartName a0 p in
      let p := set_repository a1 p in
      let p := setFieldsFromEnv (environ ext) p in
      push p
  | _ =>
      fail (ErrorString
              "This command needs 2 arguments: name of chart, repository URL")
  end.

(** [main]: the error, if any, is printed and the exit status is 1. *)
Definition main (p : pushCmd) (args : list string) (fs : gset string)
  : Z * gset string * list event :=
  let r := RunE p args fs in
  match value r with
  | Ok _ => (0, files r, events r)
  | Err e => (1, files r, (events r ++ [EvPrintln (Error e)])%list)
  end.

End Push.


(** ** Vocabulary of the properties *)

(** A string between double quotes. *)
Definition quoted (s : string) : string :=
  String dquote (s +:+ String dquote EmptyString).

(** The body [{"errors":[{"status":st,"message":m}]}], where [st] is
    JSON text and [m] the contents of a string. *)
Definition envelope (st m : string) : string :=
  "{" +:+ quoted "errors" +:+ ":[{" +:+ quoted "status" +:+ ":" +:+ st
  +:+ "," +:+ quoted "message" +:+ ":" +:+ quoted m +:+ "}]}".

(** The body [{"errors":[{"status":409,"message":m}]}]. *)
Definition envelope409 (m : string) : string := envelope "409" m.

(** The body has a list of error records that is not empty. *)
Definition hasErrorRecords (b : string) : Prop :=
  exists r e es, json_Unmarshal b = Ok r /\ Errors r = e :: es.

(** The upload came back without a transport error and with the status
    that [handlePushResponse] takes for success. *)
Definition uploadSucceeded (ev : event) : bool :=
  match ev with
  | EvUploadChartPackage _ _ (Ok resp) => (StatusCode resp =? 201)%Z
  | _ => false
  end.

(** The precedence in the specification's words, for a string field: the
    flag if it was given, else the environment variable if it is set,
    else the stored entry's value, else nothing.  A value is given or set
    when it is not the empty string. *)
Definition precedence (flag : string) (env stored : option string) : string :=
  if negb (isEmpty flag) then flag
  else match env with
       | Some v => if negb (isEmpty v) then v else default EmptyString stored
       | None => default EmptyString stored
       end.

(** One layer of the precedence: [v] unless it is empty, else [next]. *)
Definition orElse (v : string) (next : option string) : string :=
  if negb (isEmpty v) then v else default EmptyString next.

(** A pattern in which every byte is required. *)
Definition required (cs : list ascii) : list item :=
  map (fun c => (c, false)) cs.

(** The fields once the environment and the stored entry have been
    consulted, as [push] hands them to the client. *)
Definition resolved (env : gmap string string) (repo : option Repo)
    (p : pushCmd) : pushCmd :=
  seedFromRepo repo (setFieldsFromEnv env p).

(** ** Sample inputs *)

Definition conflictResponse : Response :=
  {| StatusCode := 409; Body := Ok (envelope409 "conflict") |}.

(** Status 200, but the connection breaks while the body is read. *)
Definition brokenBody200 : Response :=
  {| StatusCode := 200; Body := Err (ExternalError "io" "unexpected EOF") |}.

(** The one entry of the sample repository list. *)
Definition stableRepo : Repo :=
  {| Name := "stable"; URL := "https://artifactory/stable";
     Username := "deployer"; Password := "secret"; CAFile := EmptyString;
     CertFile := EmptyString; KeyFile := EmptyString |}.

(** Collaborators that all succeed: the upload answers 201 and the
    reindex 200. *)
Definition obligingExternals : Externals :=
  {| environ := ∅;
     repositories := [stableRepo];
     url_ParseRequestURI := fun _ => None;
     helm_GetChartByName := fun n =>
       Ok {| MetadataName := n; MetadataVersion := "0.1.0";
             MetadataAppVersion := "1.0"; ValueOverrides := [] |};
     chart_OverrideValues := fun c o =>
       Ok {| MetadataName := MetadataName c;
             MetadataVersion := MetadataVersion c;
             MetadataAppVersion := MetadataAppVersion c;
             ValueOverrides := (ValueOverrides c ++ o)%list |};
     artifactory_NewClient := fun _ => None;
     ioutil_TempDir := fun _ _ pfx => Ok ("/tmp/" +:+ pfx +:+ "386457");
     helm_CreateChartPackage := fun c tmp =>
       Ok (tmp +:+ "/" +:+ MetadataName c +:+ "-" +:+ MetadataVersion c
           +:+ ".tgz");
     client_UploadChartPackage := fun _ _ _ =>
       Ok {| StatusCode := 201; Body := Ok EmptyString |};
     client_ReindexArtifactoryRepo := fun _ =>
       Ok {| StatusCode := 200; Body := Ok "Reindexing of repository scheduled" |}
  |}.

(** The same, except that the value overrides are rejected. *)
Definition rejectingExternals : Externals :=
  {| environ := environ obligingExternals;
     repositories := repositories obligingExternals;
     url_ParseRequestURI := url_ParseRequestURI obligingExternals;
     helm_GetChartByName := helm_GetChartByName obligingExternals;
     chart_OverrideValues := fun _ _ =>
       Err (ExternalError "helm" "failed parsing --set data");
     artifactory_NewClient := artifactory_NewClient obligingExternals;
     ioutil_TempDir := ioutil_TempDir obligingExternals;
     helm_CreateChartPackage := helm_CreateChartPackage obligingExternals;
     client_UploadChartPackage := client_UploadChartPackage obligingExternals;
     client_ReindexArtifactoryRepo :=
       client_ReindexArtifactoryRepo obligingExternals |}.

(** [helm push-artifactory mychart https://artifactory/repo]. *)
Definition pushToURL : pushCmd :=
  set_repository "https://artifactory/repo" (set_chartName "mychart" flagDefaults).

(** [helm push-artifactory mychart my-helm-repo]. *)
Definition pushToName : pushCmd :=
  set_repository "my-helm-repo" (set_chartName "mychart" flagDefaults).

(** [helm push-artifactory mychart https://artifactory/repo --set image.tag=1]. *)
Definition pushWithOverride : pushCmd :=
  {| chartName := "mychart"; chartVersion := EmptyString;
     appVersion := EmptyString; repository := "https://artifactory/repo";
     path := EmptyString; username := EmptyString; password := EmptyString;
     accessToken := EmptyString; apiKey := EmptyString;
     caFile := EmptyString; certFile := EmptyString; keyFile := EmptyString;
     insecureSkipVerify := false; skipReindex := false;
     overrides := ["image.tag=1"] |}.

(** The same command with [--skip-reindex]. *)
Definition pushSkippingReindex : pushCmd := set_skipReindex true pushToURL.

(** [--insecure] on the command line and [HELM_REPO_INSECURE=false] in the
    environment; the same for [--skip-reindex]. *)
Definition pushInsecure : pushCmd := set_insecureSkipVerify true pushToURL.

Definition envSecure : gmap string string :=
  {[ "HELM_REPO_INSECURE" := "false" ]}.

Definition envReindex : gmap string string :=
  {[ "HELM_REPO_SKIP_REINDEX" := "false" ]}.

(** The directory [TempDir] makes with [obligingExternals]. *)
Definition scratchDir : string := "/tmp/helm-push-artifactory-386457".

(** ** The usage text *)

(** [strings.Replace(s, old, new, 1)]: the first occurrence of [old] in
    [s] gives way to [new]; without an occurrence [s] is returned as it
    is. *)
Fixpoint Replace1 (s old new : string) : string :=
  if String.prefix old s
  then new +:+ String.substring (String.length old)
                 (String.length s - String.length old) s
  else match s with
       | EmptyString => EmptyString
       | String c s' => String c (Replace1 s' old new)
       end.

Definition newline : string := String (byte_of 10) EmptyString.

(** The text before the placeholder. *)
Definition usageHead : string :=
  "Helm plugin to push chart package to Artifactory" +:+ newline.

(** The text after the placeholder. *)
Definition usageExamples : string :=
  newline +:+ newline +:+ "Examples:" +:+ newline +:+ newline
  +:+ "  $ helm push-artifactory mychart-0.1.0.tgz https://artifactory/repo       # push mychart-0.1.0.tgz from "
  +:+ quoted "helm package" +:+ newline
  +:+ "  $ helm push-artifactory . https://artifactory/repo                       # package and push chart directory"
  +:+ newline
  +:+ "  $ helm push-artifactory . --version=" +:+ quoted "7c4d121"
  +:+ " https://artifactory/repo   # override version in Chart.yaml"
  +:+ newline
  +:+ "  $ helm push-artifactory mychart-0.1.0.tgz my-helm-repo                   # push mychart-0.1.0.tgz to a "
  +:+ quoted "my-helm-repo" +:+ " repository" +:+ newline.

Definition globalUsage : string :=
  usageHead +:+ "%version%" +:+ usageExamples.

(** [getUsage], given what [version.GetVersion()] returns (package
    pkg/version is not among the sources). *)
Definition getUsage (version : string) : string :=
  Replace1 globalUsage "%version%" version.

(** ** Further vocabulary of the properties *)

Definition isOk {A} (r : result A) : bool :=
  match r with
  | Ok _ => true
  | Err _ => false
  end.

Definition isUpload (ev : event) : bool :=
  match ev with
  | EvUploadChartPackage _ _ _ => true
  | _ => false
  end.

(** The reindex request came back with the status 200 and a body that
    could be read. *)
Definition reindexSucceeded (ev : event) : bool :=
  match ev with
  | EvReindexArtifactoryRepo (Ok resp) =>
      (StatusCode resp =? 200)%Z && isOk (Body resp)
  | _ => false
  end.

Definition isOverrideCall (ev : event) : bool :=
  match ev with
  | EvOverrideValues _ _ => true
  | _ => false
  end.

Definition chartLoaded (ev : event) : bool :=
  match ev with
  | EvGetChartByName _ (Ok _) => true
  | _ => false
  end.

Definition isPrintln (ev : event) : bool :=
  match ev with
  | EvPrintln _ => true
  | _ => false
  end.

Definition isReadAll (ev : event) : bool :=
  match ev with
  | EvReadAll _ => true
  | _ => false
  end.

(** How many of the calls satisfy [f]. *)
Definition count (f : event -> bool) (evs : list event) : nat :=
  length (List.filter f evs).

(** A byte that stands for itself in a JSON string: printable ASCII
    other than the double quote and the backslash. *)
Definition plainByte (c : ascii) : bool :=
  in_range 32 126 c && negb (byte_eqb c dquote) && negb (byte_eqb c "\").

Definition plain (s : string) : Prop :=
  Forall (fun c => plainByte c = true) (list_ascii_of_string s).

(** The lexer's state after the bytes [bs], with more input to come. *)
Fixpoint lexFeed (st : lexState) (out : list token) (bs : list ascii)
  : option (lexState * list token) :=
  match bs with
  | [] => Some (st, out)
  | c :: bs' =>
      match lexStep st out c with
      | Some (st', out') => lexFeed st' out' bs'
      | None => None
      end
  end.

(** More sample inputs: a server that refuses the upload with 409, and
    one whose reindex request fails after the upload went through. *)
Definition refusingExternals : Externals :=
  {| environ := environ obligingExternals;
     repositories := repositories obligingExternals;
     url_ParseRequestURI := url_ParseRequestURI obligingExternals;
     helm_GetChartByName := helm_GetChartByName obligingExternals;
     chart_OverrideValues := chart_OverrideValues obligingExternals;
     artifactory_NewClient := artifactory_NewClient obligingExternals;
     ioutil_TempDir := ioutil_TempDir obligingExternals;
     helm_CreateChartPackage := helm_CreateChartPackage obligingExternals;
     client_UploadChartPackage := fun _ _ _ => Ok conflictResponse;
     client_ReindexArtifactoryRepo :=
       client_ReindexArtifactoryRepo obligingExternals |}.

Definition connectionReset : err :=
  ExternalError "net/http" "connection reset by peer".


(** The upload itself fails in transit. *)
Definition unreachableExternals : Externals :=
  {| environ := environ obligingExternals;
     repositories := repositories obligingExternals;
     url_ParseRequestURI := url_ParseRequestURI obligingExternals;
     helm_GetChartByName := helm_GetChartByName obligingExternals;
     chart_OverrideValues := chart_OverrideValues obligingExternals;
     artifactory_NewClient := artifactory_NewClient obligingExternals;
     ioutil_TempDir := ioutil_TempDir obligingExternals;
     helm_CreateChartPackage := helm_CreateChartPackage obligingExternals;
     client_UploadChartPackage := fun _ _ _ => Err connectionReset;
     client_ReindexArtifactoryRepo :=
       client_ReindexArtifactoryRepo obligingExternals |}.

(** The URL does not pass [url.ParseRequestURI], or the chart is not
    there. *)
Definition malformedURL : err := ExternalError "net/url" "invalid URI for request".

Definition strictExternals : Externals :=
  {| environ := environ obligingExternals;
     repositories := repositories obligingExternals;
     url_ParseRequestURI := fun _ => Some malformedURL;
     helm_GetChartByName := helm_GetChartByName obligingExternals;
     chart_OverrideValues := chart_OverrideValues obligingExternals;
     artifactory_NewClient := artifactory_NewClient obligingExternals;
     ioutil_TempDir := ioutil_TempDir obligingExternals;
     helm_CreateChartPackage := helm_CreateChartPackage obligingExternals;
     client_UploadChartPackage := client_UploadChartPackage obligingExternals;
     client_ReindexArtifactoryRepo :=
       client_ReindexArtifactoryRepo obligingExternals |}.

(** [HELM_REPO_SKIP_REINDEX=true] in the environment. *)
Definition skippingExternals : Externals :=
  {| environ := {[ "HELM_REPO_SKIP_REINDEX" := "true" ]};
     repositories := repositories obligingExternals;
     url_ParseRequestURI := url_ParseRequestURI obligingExternals;
     helm_GetChartByName := helm_GetChartByName obligingExternals;
     chart_OverrideValues := chart_OverrideValues obligingExternals;
     artifactory_NewClient := artifactory_NewClient obligingExternals;
     ioutil_TempDir := ioutil_TempDir obligingExternals;
     helm_CreateChartPackage := helm_CreateChartPackage obligingExternals;
     client_UploadChartPackage := client_UploadChartPackage obligingExternals;
     client_ReindexArtifactoryRepo :=
       client_ReindexArtifactoryRepo obligingExternals |}.

(** [helm push-artifactory mychart stable]. *)
Definition pushToStable : pushCmd :=
  set_repository "stable" (set_chartName "mychart" flagDefaults).

(** [HELM_REPO_INSECURE=yes]: not a value [strconv.ParseBool] accepts. *)
Definition envYes : gmap string string := {[ "HELM_REPO_INSECURE" := "yes" ]}.

(** The archive [obligingExternals] packages, the client made for the
    stored entry, and a file system with the chart's directory. *)
Definition scratchArchive : string := scratchDir +:+ "/mychart-0.1.0.tgz".

Definition stableClient : Client :=
  {| clientURL := "https://artifactory/stable"; clientPath := EmptyString;
     clientUsername := "deployer"; clientPassword := "secret";
     clientAccessToken := EmptyString; clientApiKey := EmptyString;
     clientCAFile := EmptyString; clientCertFile := EmptyString;
     clientKeyFile := EmptyString; clientInsecureSkipVerify := false |}.

Definition homeFiles : gset string := {[ "/home/user/mychart" ]}.


(** The variables [setFieldsFromEnv] looks up. *)
Definition fallbackVariables : list string :=
  ["HELM_REPO_PATH"; "HELM_REPO_USERNAME"; "HELM_REPO_PASSWORD";
   "HELM_REPO_ACCESS_TOKEN"; "HELM_REPO_API_KEY"; "HELM_REPO_CA_FILE";
   "HELM_REPO_CERT_FILE"; "HELM_REPO_KEY_FILE"; "HELM_REPO_INSECURE";
   "HELM_REPO_SKIP_REINDEX"].

(** What comes before the message in [envelope409]. *)
Definition envelopeHead409 : string :=
  "{" +:+ quoted "errors" +:+ ":[{" +:+ quoted "status" +:+ ":409,"
  +:+ quoted "message" +:+ ":".

(** * Properties *)

(** ** Strings *)

Lemma append_assoc (a b c : string) : (a +:+ b) +:+ c = a +:+ (b +:+ c).
Proof.
  induction a as [|x a IH]; [reflexivity|].
  change (String x ((a +:+ b) +:+ c) = String x (a +:+ (b +:+ c))).
  f_equal. exact IH.
Qed.

Lemma append_nil_r (a : string) : a +:+ EmptyString = a.
Proof.
  induction a as [|x a IH]; [reflexivity|].
  change (String x (a +:+ EmptyString) = String x a).
  f_equal. exact IH.
Qed.

Lemma prefix_append (p s : string) : String.prefix p (p +:+ s) = true.
Proof.
  induction p as [|x p IH]; [now destruct s|].
  change (String.prefix (String x p) (String x (p +:+ s)) = true).
  cbn [String.prefix].
  destruct (ascii_dec x x) as [_|N]; [exact IH | now destruct N].
Qed.

Lemma HasPrefix_append (p s : string) : HasPrefix (p +:+ s) p = true.
Proof. apply prefix_append. Qed.

Lemma Contains_head (s rest : string) : Contains (s +:+ rest) s.
Proof. exists EmptyString, rest. reflexivity. Qed.

Lemma Contains_tail (pre s : string) : Contains (pre +:+ s) s.
Proof. exists pre, EmptyString. now rewrite append_nil_r. Qed.

(** The numeral [itoa] writes reads back as the number. *)
Lemma itoa_read_back (n : Z) :
  Z.of_int <$> NilZero.int_of_string (itoa n) = Some n.
Proof.
  unfold itoa. rewrite NilZero.isi.
  - cbn. f_equal. apply DecimalZ.of_to.
  - destruct n; cbn; [discriminate|..]; intros H; inversion H as [H1];
      now apply Unsigned.to_uint_nonnil in H1.
  - destruct n; cbn; [discriminate|..]; intros H; inversion H as [H1];
      now apply Unsigned.to_uint_nonnil in H1.
Qed.

(** ** The error decoder *)

Lemma getArtifactoryError_cases (b : string) (code : Z) :
  (~ hasErrorRecords b /\ getArtifactoryError b code = Some (parseFailure b code))
  \/ (exists r e es, json_Unmarshal b = Ok r /\ Errors r = e :: es
        /\ getArtifactoryError b code
           = Some (ErrorString (itoa code +:+ ": " +:+ Message e))).
Proof.
  unfold getArtifactoryError, hasErrorRecords.
  destruct (json_Unmarshal b) as [r|x] eqn:Hu.
  - destruct (Errors r) as [|e es] eqn:He.
    + left. split; [|reflexivity].
      intros (r' & e & es & Hr & Hes). congruence.
    + right. exists r, e, es. auto.
  - left. split; [|reflexivity].
    intros (r' & e & es & Hr & Hes). congruence.
Qed.

(** Both return statements of the decoder build an error. *)
Lemma getArtifactoryError_is_error (b : string) (code : Z) :
  exists msg, getArtifactoryError b code = Some (ErrorString msg).
Proof.
  destruct (getArtifactoryError_cases b code)
    as [[_ H]|(r & e & es & _ & _ & H)]; rewrite H; eexists; reflexivity.
Qed.

(** What the model of [json.Unmarshal] makes of a few bodies. *)
Example Unmarshal_null : json_Unmarshal "null" = Ok {| Errors := [] |}.
Proof. vm_compute. reflexivity. Qed.

Example Unmarshal_empty_body : json_Unmarshal EmptyString = Err SyntaxError.
Proof. vm_compute. reflexivity. Qed.

Example Unmarshal_html : json_Unmarshal "<html></html>" = Err SyntaxError.
Proof. vm_compute. reflexivity. Qed.

Example Unmarshal_array : json_Unmarshal "[1, 2]" = Err UnmarshalTypeError.
Proof. vm_compute. reflexivity. Qed.

Example Unmarshal_no_errors : json_Unmarshal "{}" = Ok {| Errors := [] |}.
Proof. vm_compute. reflexivity. Qed.

Example Unmarshal_folded_key :
  json_Unmarshal ("{" +:+ quoted "ERRORS" +:+ ": [ {" +:+ quoted "Message"
                  +:+ ":" +:+ quoted "a\tb\u00e9" +:+ "}, null ] }")
  = Ok {| Errors := [ {| Status := 0;
                         Message := String "a" (String (byte_of 9)
                                      (String "b" (String (byte_of 195)
                                         (String (byte_of 169) EmptyString)))) |};
                      zeroArtifactoryError ] |}.
Proof. vm_compute. reflexivity. Qed.

(** A [status] that is not an integer makes the whole body fail to
    decode. *)
Example Unmarshal_status_string :
  json_Unmarshal (envelope (quoted "409") "m") = Err UnmarshalTypeError
  /\ json_Unmarshal (envelope "4.09e2" "m") = Err UnmarshalTypeError
  /\ getArtifactoryError (envelope (quoted "409") "m") 500
     = Some (parseFailure (envelope (quoted "409") "m") 500).
Proof. repeat split; vm_compute; reflexivity. Qed.

(** C5: the body [{"errors":[{"status":409,"message":"conflict"}]}] with
    the status code 409 decodes to the error whose message is exactly
    [409: conflict]. *)
Theorem getArtifactoryError_conflict :
  getArtifactoryError (envelope409 "conflict") 409
  = Some (ErrorString "409: conflict")
  /\ (forall e, getArtifactoryError (envelope409 "conflict") 409 = Some e ->
                Error e = "409: conflict").
Proof.
  assert (H : getArtifactoryError (envelope409 "conflict") 409
              = Some (ErrorString "409: conflict")) by (vm_compute; reflexivity).
  split; [exact H|]. intros e He. rewrite H in He. now inversion He.
Qed.

(** C6: for a body that does not parse as an object with a non-empty
    [errors] list, the decoder gives the generic error, and its message
    contains both the decimal status code and the raw body. *)
Theorem getArtifactoryError_generic (b : string) (code : Z) :
  ~ hasErrorRecords b ->
  exists msg,
    getArtifactoryError b code = Some (ErrorString msg)
    /\ msg = itoa code +:+ ": could not properly parse response JSON: " +:+ b
    /\ Contains msg (itoa code)
    /\ Contains msg b.
Proof.
  intros Hno.
  destruct (getArtifactoryError_cases b code) as [[_ H]|(r & e & es & Hr & He & _)].
  - eexists. split; [exact H|]. split; [reflexivity|]. split.
    + apply Contains_head.
    + rewrite <- append_assoc. apply Contains_tail.
  - destruct Hno. exists r, e, es. auto.
Qed.

(** An unparseable body with the status code 500: the message contains
    the literal 500 and the body. *)
Lemma getArtifactoryError_generic_witness :
  exists msg,
    getArtifactoryError "<html>Internal Server Error</html>" 500
    = Some (ErrorString msg)
    /\ msg = "500" +:+ ": could not properly parse response JSON: "
             +:+ "<html>Internal Server Error</html>"
    /\ Contains msg "500"
    /\ Contains msg "<html>Internal Server Error</html>".
Proof.
  apply (getArtifactoryError_generic "<html>Internal Server Error</html>" 500).
  intros (r & e & es & Hr & _). vm_compute in Hr. discriminate Hr.
Defined.

(** C9: whatever the body and the status code, the decoder returns an
    error, never nil, and its message begins with the decimal status code
    followed by a colon and a space. *)
Theorem getArtifactoryError_never_nil (b : string) (code : Z) :
  exists msg,
    getArtifactoryError b code = Some (ErrorString msg)
    /\ HasPrefix msg (itoa code +:+ ": ") = true.
Proof.
  destruct (getArtifactoryError_cases b code)
    as [[_ H]|(r & e & es & _ & _ & H)]; rewrite H; eexists;
    (split; [reflexivity|]).
  - change (": could not properly parse response JSON: " +:+ b)
      with (": " +:+ ("could not properly parse response JSON: " +:+ b)).
    rewrite <- append_assoc. apply HasPrefix_append.
  - rewrite <- append_assoc. apply HasPrefix_append.
Qed.

(** C10: when the body parses and its [errors] list is not empty, the
    message is the status code given to the decoder, a colon, a space and
    the first record's message; the [status] field of the record plays no
    part in it. *)
Theorem getArtifactoryError_uses_http_code
    (b : string) (code : Z) (r : errorResponse) (e : artifactoryError)
    (es : list artifactoryError) :
  json_Unmarshal b = Ok r ->
  Errors r = e :: es ->
  getArtifactoryError b code = Some (ErrorString (itoa code +:+ ": " +:+ Message e)).
Proof.
  intros Hr He. unfold getArtifactoryError. now rewrite Hr, He.
Qed.

(** The record says 409, the response said 500: the message says 500. *)
Lemma getArtifactoryError_uses_http_code_witness :
  json_Unmarshal (envelope409 "m")
  = Ok {| Errors := [{| Status := 409; Message := "m" |}] |}
  /\ getArtifactoryError (envelope409 "m") 500 = Some (ErrorString "500: m").
Proof.
  split; [vm_compute; reflexivity|].
  apply (getArtifactoryError_uses_http_code (envelope409 "m") 500
           {| Errors := [{| Status := 409; Message := "m" |}] |}
           {| Status := 409; Message := "m" |} []);
    vm_compute; reflexivity.
Defined.

(** ** The response handlers *)

Lemma handlePushResponse_value (resp : Response) (fs : gset string) :
  value (handlePushResponse resp fs)
  = if (StatusCode resp =? 201)%Z then Ok tt
    else match Body resp with
         | Ok b => match getArtifactoryError b (StatusCode resp) with
                   | Some e => Err e
                   | None => Ok tt
                   end
         | Err e => Err e
         end.
Proof.
  unfold handlePushResponse, defer, bind, call, returnError, tell, ret, fail.
  destruct (StatusCode resp =? 201)%Z; cbn; [reflexivity|].
  destruct (Body resp) as [b|e]; cbn; [|reflexivity].
  now destruct (getArtifactoryError b (StatusCode resp)).
Qed.

Lemma handleReindexResponse_value (resp : Response) (fs : gset string) :
  value (handleReindexResponse resp fs)
  = match Body resp with
    | Ok b =>
        if (StatusCode resp =? 200)%Z then Ok tt
        else match getArtifactoryError b (StatusCode resp) with
             | Some e => Err e
             | None => Ok tt
             end
    | Err e => Err e
    end.
Proof.
  unfold handleReindexResponse, defer, bind, call, returnError, tell, ret, fail.
  destruct (Body resp) as [b|e]; cbn; [|reflexivity].
  destruct (StatusCode resp =? 200)%Z; cbn; [reflexivity|].
  now destruct (getArtifactoryError b (StatusCode resp)).
Qed.

(** The handlers leave the file system alone. *)
Lemma handlePushResponse_files (resp : Response) (fs : gset string) :
  files (handlePushResponse resp fs) = fs.
Proof.
  unfold handlePushResponse, defer, bind, call, returnError, tell, ret, fail.
  destruct (StatusCode resp =? 201)%Z; cbn; [reflexivity|].
  destruct (Body resp) as [b|e]; cbn; [|reflexivity].
  now destruct (getArtifactoryError b (StatusCode resp)).
Qed.

Lemma handleReindexResponse_files (resp : Response) (fs : gset string) :
  files (handleReindexResponse resp fs) = fs.
Proof.
  unfold handleReindexResponse, defer, bind, call, returnError, tell, ret, fail.
  destruct (Body resp) as [b|e]; cbn; [|reflexivity].
  destruct (StatusCode resp =? 200)%Z; cbn; [reflexivity|].
  now destruct (getArtifactoryError b (StatusCode resp)).
Qed.

(** A response with the status 200 whose body cannot be read to its end:
    the reindex handler returns the read error, so it is not true of every
    response that the handler succeeds exactly when the status is 200. *)
Lemma handleReindexResponse_200_unreadable :
  ~ (value (handleReindexResponse brokenBody200 ∅) = Ok tt
     <-> StatusCode brokenBody200 = 200).
Proof.
  intros [_ H]. specialize (H eq_refl).
  rewrite handleReindexResponse_value in H. discriminate H.
Qed.

(** C2, amended: for every response whose body is read without error, the
    upload handler succeeds exactly when the status code is 201 and the
    reindex handler exactly when it is 200; for any other status code the
    handler returns the error that [getArtifactoryError] decodes from the
    body. *)
Theorem handlers_classify (resp : Response) (b : string) (fs : gset string) :
  Body resp = Ok b ->
  (value (handlePushResponse resp fs) = Ok tt <-> StatusCode resp = 201)
  /\ (value (handleReindexResponse resp fs) = Ok tt <-> StatusCode resp = 200)
  /\ (StatusCode resp <> 201 ->
      exists e, getArtifactoryError b (StatusCode resp) = Some e
                /\ value (handlePushResponse resp fs) = Err e)
  /\ (StatusCode resp <> 200 ->
      exists e, getArtifactoryError b (StatusCode resp) = Some e
                /\ value (handleReindexResponse resp fs) = Err e).
Proof.
  intros Hb.
  rewrite handlePushResponse_value, handleReindexResponse_value, Hb.
  destruct (getArtifactoryError_is_error b (StatusCode resp)) as (msg & Hm).
  rewrite Hm.
  destruct (Z.eqb_spec (StatusCode resp) 201) as [E1|N1];
    destruct (Z.eqb_spec (StatusCode resp) 200) as [E2|N2];
    repeat split; try congruence; try discriminate; eauto.
Qed.

Lemma handlers_classify_witness :
  (value (handlePushResponse conflictResponse ∅) = Ok tt
   <-> StatusCode conflictResponse = 201)
  /\ (value (handleReindexResponse conflictResponse ∅) = Ok tt
      <-> StatusCode conflictResponse = 200)
  /\ (StatusCode conflictResponse <> 201 ->
      exists e, getArtifactoryError (envelope409 "conflict")
                  (StatusCode conflictResponse) = Some e
                /\ value (handlePushResponse conflictResponse ∅) = Err e)
  /\ (StatusCode conflictResponse <> 200 ->
      exists e, getArtifactoryError (envelope409 "conflict")
                  (StatusCode conflictResponse) = Some e
                /\ value (handleReindexResponse conflictResponse ∅) = Err e).
Proof.
  apply (handlers_classify conflictResponse (envelope409 "conflict") ∅).
  reflexivity.
Defined.

(** When the body cannot be read, the upload handler still succeeds on 201
    (it does not read the body then) and returns the read error otherwise;
    the reindex handler, which reads the body first, returns the read
    error whatever the status code. *)
Lemma handlers_read_error (resp : Response) (e : err) (fs : gset string) :
  Body resp = Err e ->
  (value (handlePushResponse resp fs) = Ok tt <-> StatusCode resp = 201)
  /\ (StatusCode resp <> 201 -> value (handlePushResponse resp fs) = Err e)
  /\ value (handleReindexResponse resp fs) = Err e.
Proof.
  intros Hb.
  rewrite handlePushResponse_value, handleReindexResponse_value, Hb.
  destruct (Z.eqb_spec (StatusCode resp) 201) as [E1|N1];
    repeat split; try congruence; try discriminate.
Qed.

(** ** The push flow *)

Lemma skipReindex_seedFromRepo (repo : option Repo) (p : pushCmd) :
  skipReindex (seedFromRepo repo p) = skipReindex p.
Proof.
  destruct repo; [|reflexivity].
  unfold seedFromRepo. repeat (destruct (isEmpty _)); reflexivity.
Qed.

Lemma GetRepoByName_unknown (store : list Repo) (name : string) :
  (forall r, r ∈ store -> Name r <> name) <->
  GetRepoByName store name = Err (UnknownRepository name).
Proof.
  unfold GetRepoByName. induction store as [|r store IH]; cbn.
  - split; [reflexivity|]. intros _ r Hr. now apply not_elem_of_nil in Hr.
  - destruct (String.eqb_spec (Name r) name) as [E|N].
    + split; [|discriminate]. intros H. destruct (H r); [left | exact E].
    + rewrite <- IH. split.
      * intros H x Hx. apply H. now right.
      * intros H x Hx. apply elem_of_cons in Hx as [->|Hx]; [exact N | now apply H].
Qed.

Lemma GetRepoByName_found (store : list Repo) (name : string) (r : Repo) :
  GetRepoByName store name = Ok r -> r ∈ store /\ Name r = name.
Proof.
  unfold GetRepoByName. induction store as [|x store IH]; cbn; [discriminate|].
  destruct (String.eqb_spec (Name x) name) as [E|N].
  - intros [= ->]. split; [left | exact E].
  - intros H. destruct (IH H) as [Hin Hn]. split; [now right | exact Hn].
Qed.

(** The decoder's result, wherever it shows up, is an error. *)
Ltac decode_error :=
  match goal with
  | |- context [getArtifactoryError ?b ?c] =>
      let H := fresh in
      destruct (getArtifactoryError_is_error b c) as (? & H);
      rewrite H; clear H
  end.

(** Case analysis on the innermost result the goal still branches on. *)
Ltac split_match :=
  match goal with
  | |- context [match ?x with _ => _ end] =>
      lazymatch x with
      | context [match _ with _ => _ end] => fail
      | _ => destruct x eqn:?
      end
  end.

(** Every path through [push], one goal for each. *)
Ltac run_flow :=
  unfold push, resolveRepository, handlePushResponse, handleReindexResponse,
    bind, call, callE, ret, fail, defer, TempDir, CreateChartPackage,
    RemoveAll, tell, returnError;
  repeat (cbn; rewrite ?skipReindex_seedFromRepo;
          first [decode_error | split_match]);
  cbn.

(** [exists pre, l = pre ++ suffix] for lists that are written out. *)
Ltac find_prefix l acc :=
  first [ exists (rev acc); reflexivity
        | lazymatch l with
          | ?x :: ?l' => find_prefix l' (x :: acc)
          end ].

Ltac solve_suffix :=
  lazymatch goal with
  | |- exists pre, ?l = (pre ++ _)%list => find_prefix l (@nil event)
  end.

Ltac status_cases :=
  repeat match goal with
         | H : negb ?b = _ |- _ => destruct b; cbn in H; try discriminate H
         | H : skipReindex _ = _ |- _ => rewrite H in *
         end.

Section PushProperties.

Variable ext : Externals.

Local Opaque seedFromRepo looksLikeURL isEmpty Nat.ltb Z.eqb GetRepoByName.

(** C3: the reindex request is issued exactly when the upload has
    succeeded and skip-reindex is false; and when the upload has
    succeeded and skip-reindex is true, push returns nil right after
    the upload confirmation, the only thing left to happen being the
    removal of the scratch directory. *)
Theorem reindex_iff_uploaded_and_not_skipped (p : pushCmd) (fs : gset string) :
  existsb isReindex (events (push ext p fs))
  = existsb uploadSucceeded (events (push ext p fs)) && negb (skipReindex p)
  /\ (existsb uploadSucceeded (events (push ext p fs)) = true ->
      skipReindex p = true ->
      value (push ext p fs) = Ok tt
      /\ exists n f resp tmp pre,
           events (push ext p fs)
           = (pre ++ [EvUploadChartPackage n f (Ok resp); EvPrintln "Done.";
                      EvBodyClose; EvRemoveAll tmp])%list).
Proof.
  run_flow.
  all: status_cases; cbn.
  all: split; [first [reflexivity | discriminate] | try (intros; discriminate)].
  all: intros _ _; split; [reflexivity|]; do 4 eexists; solve_suffix.
Qed.

(** C4: for a repository argument that matches the URL pattern the flow
    makes no named-repository lookup; for any other argument the lookup
    is the first thing the flow does, and when no entry has that name
    the flow ends there with the lookup's error. *)
Theorem url_skips_lookup_name_needs_entry (p : pushCmd) (fs : gset string) :
  (looksLikeURL (repository p) = true ->
   existsb isRepoLookup (events (push ext p fs)) = false)
  /\ (looksLikeURL (repository p) = false ->
      (exists rest,
         events (push ext p fs)
         = EvGetRepoByName (repository p)
             (GetRepoByName (repositories ext) (repository p)) :: rest)
      /\ ((forall r, r ∈ repositories ext -> Name r <> repository p) ->
          value (push ext p fs) = Err (UnknownRepository (repository p))
          /\ events (push ext p fs)
             = [EvGetRepoByName (repository p)
                  (Err (UnknownRepository (repository p)))])).
Proof.
  split.
  - intros Hurl. run_flow; try reflexivity; congruence.
  - intros Hname. split.
    + run_flow; try congruence; eexists; reflexivity.
    + intros Hnone. apply GetRepoByName_unknown in Hnone.
      unfold push, resolveRepository, bind, call.
      rewrite Hname, Hnone. split; reflexivity.
Qed.

(** C7: when the value overrides are rejected or the chart cannot be
    packaged, push returns that very error and has made no network
    call: neither the upload nor the reindex request was issued. *)
Theorem no_network_after_packaging_failure
    (p : pushCmd) (fs : gset string) (e : err) :
  (In (EvOverrideValues (overrides p) (Err e)) (events (push ext p fs))
   \/ exists tmp,
        In (EvCreateChartPackage tmp (Err e)) (events (push ext p fs))) ->
  value (push ext p fs) = Err e
  /\ existsb isNetworkCall (events (push ext p fs)) = false.
Proof.
  run_flow.
  all: intros [H|[tmp H]]; repeat (destruct H as [H|H]; try discriminate H).
  all: try contradiction.
  all: inversion H; subst; split; reflexivity.
Qed.

(** C8: once the scratch directory has been created, push ends, on
    every path, with its removal: the removal is the last thing push
    does, and afterwards neither the directory nor anything under it
    exists. *)
Theorem scratch_directory_removed
    (p : pushCmd) (fs : gset string) (tmp : string) :
  In (EvTempDir (Ok tmp)) (events (push ext p fs)) ->
  last (events (push ext p fs)) = Some (EvRemoveAll tmp)
  /\ (tmp ∉ files (push ext p fs))
  /\ forall q, q ∈ files (push ext p fs) -> ~ under tmp q.
Proof.
  run_flow.
  all: intros H; repeat (destruct H as [H|H]; try discriminate H).
  all: try contradiction.
  all: inversion H; subst; split; [reflexivity|].
  all: split; [intros Hq | intros q Hq]; apply elem_of_filter in Hq as [Hq _];
    [apply Hq; now left | exact Hq].
Qed.

(** Paths outside of the scratch directory that existed before the push
    exist after it. *)
Lemma push_keeps_other_files (p : pushCmd) (fs : gset string) (q : string) :
  q ∈ fs ->
  (forall tmp, In (EvTempDir (Ok tmp)) (events (push ext p fs)) -> ~ under tmp q) ->
  q ∈ files (push ext p fs).
Proof.
  run_flow.
  all: intros Hq Hout; try exact Hq.
  all: apply elem_of_filter; split; [apply Hout; cbn; tauto | set_solver].
Qed.

(** When no scratch directory was created, the file system is as it
    was. *)
Lemma push_without_scratch (p : pushCmd) (fs : gset string) :
  (forall tmp, ~ In (EvTempDir (Ok tmp)) (events (push ext p fs))) ->
  files (push ext p fs) = fs.
Proof.
  run_flow.
  all: intros H; try reflexivity.
  all: exfalso; eapply H; cbn; eauto 10.
Qed.

End PushProperties.

Lemma reindex_iff_uploaded_and_not_skipped_witness :
  existsb isReindex (events (push obligingExternals pushSkippingReindex ∅)) = false
  /\ value (push obligingExternals pushSkippingReindex ∅) = Ok tt.
Proof.
  destruct (reindex_iff_uploaded_and_not_skipped
              obligingExternals pushSkippingReindex ∅) as [Hiff Hskip].
  split.
  - rewrite Hiff. vm_compute. reflexivity.
  - apply Hskip; vm_compute; reflexivity.
Defined.

Lemma url_skips_lookup_name_needs_entry_witness :
  existsb isRepoLookup (events (push obligingExternals pushToURL ∅)) = false
  /\ value (push obligingExternals pushToName ∅)
     = Err (UnknownRepository "my-helm-repo").
Proof.
  split.
  - destruct (url_skips_lookup_name_needs_entry obligingExternals pushToURL ∅)
      as [Hurl _].
    apply Hurl. vm_compute. reflexivity.
  - destruct (url_skips_lookup_name_needs_entry obligingExternals pushToName ∅)
      as [_ Hname].
    destruct Hname as [_ Hnone]; [vm_compute; reflexivity|].
    apply Hnone. intros r Hr. cbn in Hr.
    apply list_elem_of_singleton in Hr as ->. discriminate.
Defined.

Lemma no_network_after_packaging_failure_witness :
  value (push rejectingExternals pushWithOverride ∅)
  = Err (ExternalError "helm" "failed parsing --set data")
  /\ existsb isNetworkCall (events (push rejectingExternals pushWithOverride ∅))
     = false.
Proof.
  apply (no_network_after_packaging_failure rejectingExternals pushWithOverride ∅).
  left. vm_compute. auto 10.
Defined.

Lemma scratch_directory_removed_witness :
  last (events (push obligingExternals pushToURL ∅)) = Some (EvRemoveAll scratchDir)
  /\ (scratchDir ∉ files (push obligingExternals pushToURL ∅))
  /\ forall q, q ∈ files (push obligingExternals pushToURL ∅) ->
               ~ under scratchDir q.
Proof.
  apply (scratch_directory_removed obligingExternals pushToURL ∅ scratchDir).
  vm_compute. auto 10.
Defined.

(** ** Flags, environment and stored entry *)

(** C1, at the input where the code departs from it: with [--insecure]
    given and [HELM_REPO_INSECURE=false] set, the resolved value is the
    environment's [false], not the flag's [true]; and likewise for
    [--skip-reindex] with [HELM_REPO_SKIP_REINDEX=false]. *)
Theorem bool_environment_beats_flag :
  insecureSkipVerify pushInsecure = true
  /\ insecureSkipVerify (resolved envSecure None pushInsecure) = false
  /\ skipReindex pushSkippingReindex = true
  /\ skipReindex (resolved envReindex None pushSkippingReindex) = false.
Proof. repeat split; vm_compute; reflexivity. Qed.

Lemma isEmpty_true (s : string) : isEmpty s = true -> s = EmptyString.
Proof. unfold isEmpty. now destruct (String.eqb_spec s EmptyString). Qed.

(** A fallback for one field leaves the others alone. *)
Lemma envString_other {A} (g : pushCmd -> A) (env : gmap string string)
    (name : string) (get : pushCmd -> string)
    (set : string -> pushCmd -> pushCmd) (p : pushCmd) :
  (forall v q, g (set v q) = g q) ->
  g (envString env name get set p) = g p.
Proof.
  intros Hset. unfold envString.
  destruct (env !! name); [|reflexivity].
  destruct (isEmpty (get p)); [apply Hset | reflexivity].
Qed.

Lemma envBool_other {A} (g : pushCmd -> A) (env : gmap string string)
    (name : string) (set : bool -> pushCmd -> pushCmd) (p : pushCmd) :
  (forall v q, g (set v q) = g q) ->
  g (envBool env name set p) = g p.
Proof.
  intros Hset. unfold envBool.
  destruct (env !! name); [apply Hset | reflexivity].
Qed.

(** The fallback for the field itself: the variable's value when the field
    is empty and the variable is set. *)
Lemma envString_self (env : gmap string string) (name : string)
    (get : pushCmd -> string) (set : string -> pushCmd -> pushCmd)
    (p : pushCmd) :
  (forall v q, get (set v q) = v) ->
  get (envString env name get set p)
  = if negb (isEmpty (get p)) then get p
    else default EmptyString (env !! name).
Proof.
  intros Hset. unfold envString.
  destruct (env !! name) as [v|]; cbn;
    destruct (isEmpty (get p)) eqn:E; cbn; auto using isEmpty_true.
Qed.

Lemma precedence_layers (flag : string) (env stored : option string) :
  precedence flag env stored = orElse (orElse flag env) stored.
Proof.
  unfold precedence, orElse.
  destruct (isEmpty flag) eqn:Ef; cbn [negb].
  - destruct env as [v|]; reflexivity.
  - now rewrite Ef.
Qed.

(** A field of the command after the environment has been consulted. *)
Ltac through_env :=
  unfold setFieldsFromEnv;
  repeat first
    [ rewrite envBool_other by reflexivity
    | rewrite envString_other by reflexivity ];
  rewrite envString_self by reflexivity;
  repeat first
    [ rewrite envBool_other by reflexivity
    | rewrite envString_other by reflexivity ];
  reflexivity.

(** A field of the command after the stored entry has been consulted. *)
Ltac through_repo :=
  unfold orElse;
  match goal with
  | |- _ (seedFromRepo ?repo _) = _ => destruct repo as [r|]
  end;
  cbn [fmap option_fmap option_map default seedFromRepo];
  repeat match goal with
         | |- context [isEmpty ?x] =>
             lazymatch x with
             | context [if _ then _ else _] => fail
             | _ => let E := fresh "E" in
                    destruct (isEmpty x) eqn:E; cbn in E |- *; rewrite ?E
             end
         end;
  cbn; try reflexivity; try congruence;
  auto using isEmpty_true, eq_sym.

Lemma path_from_env (env : gmap string string) (p : pushCmd) :
  path (setFieldsFromEnv env p) = orElse (path p) (env !! "HELM_REPO_PATH").
Proof. through_env. Qed.

Lemma path_from_repo (repo : option Repo) (q : pushCmd) :
  path (seedFromRepo repo q) = orElse (path q) None.
Proof. through_repo. Qed.

Lemma username_from_env (env : gmap string string) (p : pushCmd) :
  username (setFieldsFromEnv env p) = orElse (username p) (env !! "HELM_REPO_USERNAME").
Proof. through_env. Qed.

Lemma username_from_repo (repo : option Repo) (q : pushCmd) :
  username (seedFromRepo repo q) = orElse (username q) (Username <$> repo).
Proof. through_repo. Qed.

Lemma password_from_env (env : gmap string string) (p : pushCmd) :
  password (setFieldsFromEnv env p) = orElse (password p) (env !! "HELM_REPO_PASSWORD").
Proof. through_env. Qed.

Lemma password_from_repo (repo : option Repo) (q : pushCmd) :
  password (seedFromRepo repo q) = orElse (password q) (Password <$> repo).
Proof. through_repo. Qed.

Lemma accessToken_from_env (env : gmap string string) (p : pushCmd) :
  accessToken (setFieldsFromEnv env p) = orElse (accessToken p) (env !! "HELM_REPO_ACCESS_TOKEN").
Proof. through_env. Qed.

Lemma accessToken_from_repo (repo : option Repo) (q : pushCmd) :
  accessToken (seedFromRepo repo q) = orElse (accessToken q) None.
Proof. through_repo. Qed.

Lemma apiKey_from_env (env : gmap string string) (p : pushCmd) :
  apiKey (setFieldsFromEnv env p) = orElse (apiKey p) (env !! "HELM_REPO_API_KEY").
Proof. through_env. Qed.

Lemma apiKey_from_repo (repo : option Repo) (q : pushCmd) :
  apiKey (seedFromRepo repo q) = orElse (apiKey q) None.
Proof. through_repo. Qed.

Lemma caFile_from_env (env : gmap string string) (p : pushCmd) :
  caFile (setFieldsFromEnv env p) = orElse (caFile p) (env !! "HELM_REPO_CA_FILE").
Proof. through_env. Qed.

Lemma caFile_from_repo (repo : option Repo) (q : pushCmd) :
  caFile (seedFromRepo repo q) = orElse (caFile q) (CAFile <$> repo).
Proof. through_repo. Qed.

Lemma certFile_from_env (env : gmap string string) (p : pushCmd) :
  certFile (setFieldsFromEnv env p) = orElse (certFile p) (env !! "HELM_REPO_CERT_FILE").
Proof. through_env. Qed.

Lemma certFile_from_repo (repo : option Repo) (q : pushCmd) :
  certFile (seedFromRepo repo q) = orElse (certFile q) (CertFile <$> repo).
Proof. through_repo. Qed.

Lemma keyFile_from_env (env : gmap string string) (p : pushCmd) :
  keyFile (setFieldsFromEnv env p) = orElse (keyFile p) (env !! "HELM_REPO_KEY_FILE").
Proof. through_env. Qed.

Lemma keyFile_from_repo (repo : option Repo) (q : pushCmd) :
  keyFile (seedFromRepo repo q) = orElse (keyFile q) (KeyFile <$> repo).
Proof. through_repo. Qed.

(** For the string fields the code follows the precedence: flag, then
    environment, then stored entry.  ([path], [accessToken] and [apiKey]
    have no stored value.) *)
Lemma path_precedence (env : gmap string string) (repo : option Repo)
    (p : pushCmd) :
  path (resolved env repo p) = precedence (path p) (env !! "HELM_REPO_PATH") None.
Proof.
  unfold resolved.
  now rewrite precedence_layers, path_from_repo, path_from_env.
Qed.

Lemma username_precedence (env : gmap string string) (repo : option Repo)
    (p : pushCmd) :
  username (resolved env repo p) = precedence (username p) (env !! "HELM_REPO_USERNAME") (Username <$> repo).
Proof.
  unfold resolved.
  now rewrite precedence_layers, username_from_repo, username_from_env.
Qed.

Lemma password_precedence (env : gmap string string) (repo : option Repo)
    (p : pushCmd) :
  password (resolved env repo p) = precedence (password p) (env !! "HELM_REPO_PASSWORD") (Password <$> repo).
Proof.
  unfold resolved.
  now rewrite precedence_layers, password_from_repo, password_from_env.
Qed.

Lemma accessToken_precedence (env : gmap string string) (repo : option Repo)
    (p : pushCmd) :
  accessToken (resolved env repo p) = precedence (accessToken p) (env !! "HELM_REPO_ACCESS_TOKEN") None.
Proof.
  unfold resolved.
  now rewrite precedence_layers, accessToken_from_repo, accessToken_from_env.
Qed.

Lemma apiKey_precedence (env : gmap string string) (repo : option Repo)
    (p : pushCmd) :
  apiKey (resolved env repo p) = precedence (apiKey p) (env !! "HELM_REPO_API_KEY") None.
Proof.
  unfold resolved.
  now rewrite precedence_layers, apiKey_from_repo, apiKey_from_env.
Qed.

Lemma caFile_precedence (env : gmap string string) (repo : option Repo)
    (p : pushCmd) :
  caFile (resolved env repo p) = precedence (caFile p) (env !! "HELM_REPO_CA_FILE") (CAFile <$> repo).
Proof.
  unfold resolved.
  now rewrite precedence_layers, caFile_from_repo, caFile_from_env.
Qed.

Lemma certFile_precedence (env : gmap string string) (repo : option Repo)
    (p : pushCmd) :
  certFile (resolved env repo p) = precedence (certFile p) (env !! "HELM_REPO_CERT_FILE") (CertFile <$> repo).
Proof.
  unfold resolved.
  now rewrite precedence_layers, certFile_from_repo, certFile_from_env.
Qed.

Lemma keyFile_precedence (env : gmap string string) (repo : option Repo)
    (p : pushCmd) :
  keyFile (resolved env repo p) = precedence (keyFile p) (env !! "HELM_REPO_KEY_FILE") (KeyFile <$> repo).
Proof.
  unfold resolved.
  now rewrite precedence_layers, keyFile_from_repo, keyFile_from_env.
Qed.

(** For the two boolean fields the environment variable, when set,
    decides, whatever the flag said; the stored entry has no say. *)
Lemma insecureSkipVerify_resolved (env : gmap string string)
    (repo : option Repo) (p : pushCmd) :
  insecureSkipVerify (resolved env repo p)
  = match env !! "HELM_REPO_INSECURE" with
    | Some v => fst (ParseBool v)
    | None => insecureSkipVerify p
    end.
Proof.
  unfold resolved.
  transitivity (insecureSkipVerify (setFieldsFromEnv env p)).
  - destruct repo; [|reflexivity]. unfold seedFromRepo.
    repeat (destruct (isEmpty _)); reflexivity.
  - unfold setFieldsFromEnv.
    rewrite envBool_other by reflexivity.
    unfold envBool at 1. destruct (env !! "HELM_REPO_INSECURE"); [reflexivity|].
    now rewrite !envString_other by reflexivity.
Qed.

Lemma skipReindex_resolved (env : gmap string string)
    (repo : option Repo) (p : pushCmd) :
  skipReindex (resolved env repo p)
  = match env !! "HELM_REPO_SKIP_REINDEX" with
    | Some v => fst (ParseBool v)
    | None => skipReindex p
    end.
Proof.
  unfold resolved. rewrite skipReindex_seedFromRepo.
  unfold setFieldsFromEnv.
  unfold envBool at 1. destruct (env !! "HELM_REPO_SKIP_REINDEX"); [reflexivity|].
  rewrite envBool_other by reflexivity.
  now rewrite !envString_other by reflexivity.
Qed.

(** ** The URL pattern *)

Lemma byte_eqb_eq (a b : ascii) : byte_eqb a b = true <-> a = b.
Proof.
  unfold byte_eqb, byteval. rewrite N.eqb_eq. split; [|now intros ->].
  intros H. rewrite <- (ascii_N_embedding a), <- (ascii_N_embedding b).
  now rewrite H.
Qed.

Lemma matchPrefix_required (cs : list ascii) (s : string) :
  matchPrefix (required cs) (list_ascii_of_string s)
  = String.prefix (string_of_list_ascii cs) s.
Proof.
  revert s. induction cs as [|c cs IH]; intros s; [now destruct s|].
  destruct s as [|x s]; [reflexivity|].
  cbn [required map matchPrefix list_ascii_of_string string_of_list_ascii
       String.prefix andb orb].
  rewrite orb_false_r. fold (required cs). rewrite IH.
  destruct (ascii_dec c x) as [->|N].
  - now rewrite (proj2 (byte_eqb_eq x x) eq_refl).
  - destruct (byte_eqb x c) eqn:E; [|reflexivity].
    apply byte_eqb_eq in E. now destruct N.
Qed.

Lemma matchPrefix_optional (cs : list ascii) (c : ascii) (pat : list item)
    (bs : list ascii) :
  matchPrefix (required cs ++ (c, true) :: pat) bs
  = matchPrefix (required cs ++ (c, false) :: pat) bs
    || matchPrefix (required cs ++ pat) bs.
Proof.
  revert bs. induction cs as [|a cs IH]; intros bs.
  - cbn [required map app matchPrefix andb]. now rewrite orb_false_r.
  - cbn [required map app matchPrefix andb]. fold (required cs).
    rewrite !orb_false_r. destruct bs as [|x bs]; [reflexivity|].
    rewrite IH. apply andb_orb_distrib_r.
Qed.

(** The pattern of [push] matches exactly the strings that begin with
    [http://] or with [https://]. *)
Lemma looksLikeURL_prefix (s : string) :
  looksLikeURL s = HasPrefix s "http://" || HasPrefix s "https://".
Proof.
  unfold looksLikeURL, HasPrefix.
  change urlPattern
    with (required ["h"; "t"; "t"; "p"]%char
            ++ ("s"%char, true) :: required [":"; "/"; "/"]%char)%list.
  rewrite matchPrefix_optional.
  change (required ["h"; "t"; "t"; "p"]%char
            ++ ("s"%char, false) :: required [":"; "/"; "/"]%char)%list
    with (required ["h"; "t"; "t"; "p"; "s"; ":"; "/"; "/"]%char).
  change (required ["h"; "t"; "t"; "p"]%char ++ required [":"; "/"; "/"]%char)%list
    with (required ["h"; "t"; "t"; "p"; ":"; "/"; "/"]%char).
  rewrite !matchPrefix_required. apply orb_comm.
Qed.

(** ** The whole command *)

(** The exit status is 0 exactly when [RunE] returns nil. *)
Lemma main_exit_status (ext : Externals) (p : pushCmd) (args : list string)
    (fs : gset string) :
  (main ext p args fs).1.1 = 0 <-> value (RunE ext p args fs) = Ok tt.
Proof.
  unfold main. destruct (value (RunE ext p args fs)) as [[]|e]; cbn.
  - split; reflexivity.
  - split; discriminate.
Qed.

(** With anything but two arguments nothing is called at all. *)
Lemma RunE_arity (ext : Externals) (p : pushCmd) (args : list string)
    (fs : gset string) :
  length args <> 2%nat ->
  events (RunE ext p args fs) = [] /\ files (RunE ext p args fs) = fs
  /\ exists e, value (RunE ext p args fs) = Err e.
Proof.
  intros H. destruct args as [|a0 [|a1 [|a2 args]]]; cbn in *;
    try congruence; eauto.
Qed.

(** Pushing to the stored name: the entry's URL and credentials reach the
    client, and the run ends with exit status 0. *)
Example push_to_stored_name :
  let r := main obligingExternals flagDefaults ["mychart"; "stable"] ∅ in
  r.1.1 = 0
  /\ In (EvNewClient
           {| clientURL := "https://artifactory/stable";
              clientPath := EmptyString;
              clientUsername := "deployer"; clientPassword := "secret";
              clientAccessToken := EmptyString; clientApiKey := EmptyString;
              clientCAFile := EmptyString; clientCertFile := EmptyString;
              clientKeyFile := EmptyString;
              clientInsecureSkipVerify := false |} None) r.2
  /\ r.1.2 = ∅.
Proof. vm_compute. repeat split; auto 10. Qed.

(** * Further properties of the code *)

(** ** The push flow, call by call *)

Lemma seedFromRepo_None (p : pushCmd) : seedFromRepo None p = p.
Proof. reflexivity. Qed.

Lemma repository_seedFromRepo (r : Repo) (p : pushCmd) :
  repository (seedFromRepo (Some r) p) = URL r.
Proof. unfold seedFromRepo. repeat (destruct (isEmpty _)); reflexivity. Qed.

(** As [decode_error], keeping what the decoder returned. *)
Ltac decode_error_keep :=
  match goal with
  | |- context [getArtifactoryError ?b ?c] =>
      let H := fresh "Hdec" in
      destruct (getArtifactoryError_is_error b c) as (? & H);
      rewrite H
  end.

Ltac run_flow_keep :=
  unfold push, resolveRepository, handlePushResponse, handleReindexResponse,
    bind, call, callE, ret, fail, defer, TempDir, CreateChartPackage,
    RemoveAll, tell, returnError;
  repeat (cbn; rewrite ?skipReindex_seedFromRepo;
          first [decode_error_keep | split_match]);
  cbn.

(** As [status_cases], keeping the outcome of each comparison. *)
Ltac status_cases_keep :=
  repeat match goal with
         | H : negb ?b = _ |- _ =>
             destruct b eqn:?; cbn in H; try discriminate H; clear H
         | H : skipReindex _ = _ |- _ => rewrite H in *
         end.

(** The hypothesis [In ev evs] for a list that is written out. *)
Ltac pick_event H :=
  repeat (destruct H as [H|H]; try discriminate H); try contradiction;
  try (inversion H; subst; clear H).

Section PushCoverage.

Variable ext : Externals.

Local Opaque seedFromRepo looksLikeURL isEmpty Nat.ltb Z.eqb GetRepoByName.

(** X1: push returns nil exactly when the upload came back with the
    status 201 and either skip-reindex is set or the reindex request came
    back with the status 200 and a readable body. *)
Theorem push_succeeds_iff (p : pushCmd) (fs : gset string) :
  isOk (value (push ext p fs))
  = existsb uploadSucceeded (events (push ext p fs))
    && (skipReindex p || existsb reindexSucceeded (events (push ext p fs))).
Proof.
  run_flow.
  all: status_cases; cbn.
  all: repeat match goal with
              | H : Body _ = _ |- _ => rewrite H; clear H
              end; cbn.
  all: rewrite ?orb_false_r, ?andb_false_r; reflexivity.
Qed.


(** X3: push never retries: on every path it issues at most one upload
    and at most one reindex request. *)
Theorem push_never_retries (p : pushCmd) (fs : gset string) :
  (count isUpload (events (push ext p fs)) <= 1)%nat
  /\ (count isReindex (events (push ext p fs)) <= 1)%nat.
Proof.
  run_flow. all: unfold count; cbn; split; lia.
Qed.

(** X4: when the upload fails in transit, push returns that error at
    once: no response body is read, nothing is printed and no reindex
    request is made. *)
Theorem upload_transport_error (p : pushCmd) (fs : gset string)
    (n f : string) (e : err) :
  In (EvUploadChartPackage n f (Err e)) (events (push ext p fs)) ->
  value (push ext p fs) = Err e
  /\ existsb isReindex (events (push ext p fs)) = false
  /\ existsb isReadAll (events (push ext p fs)) = false
  /\ existsb isPrintln (events (push ext p fs)) = false.
Proof.
  run_flow. all: intros Hin; pick_event Hin.
  all: repeat split; reflexivity.
Qed.

(** X5: what is uploaded is the archive that [CreateChartPackage] has
    just returned, and it was packaged into the scratch directory that
    this run created. *)
Theorem upload_sends_fresh_package (p : pushCmd) (fs : gset string)
    (n f : string) (r : result Response) :
  In (EvUploadChartPackage n f r) (events (push ext p fs)) ->
  exists tmp,
    In (EvTempDir (Ok tmp)) (events (push ext p fs))
    /\ In (EvCreateChartPackage tmp (Ok f)) (events (push ext p fs)).
Proof.
  run_flow. all: intros Hin; pick_event Hin.
  all: match goal with
       | |- context [EvTempDir (Ok ?t)] => exists t
       end; cbn; tauto.
Qed.

(** X6: the options the client is built from.  For a URL argument they
    are the command's own fields, with the argument as the URL and nothing
    from any stored entry; for a name they are seeded from the first
    stored entry of that name, and the URL is that entry's URL. *)
Theorem client_is_built_from_resolved_fields (p : pushCmd) (fs : gset string)
    (c : Client) (r : error) :
  In (EvNewClient c r) (events (push ext p fs)) ->
  (looksLikeURL (repository p) = true -> c = clientOptions p)
  /\ (looksLikeURL (repository p) = false ->
      exists entry,
        entry ∈ repositories ext /\ Name entry = repository p
        /\ c = clientOptions (seedFromRepo (Some entry) p)
        /\ clientURL c = URL entry).
Proof.
  run_flow. all: intros Hin; pick_event Hin.
  all: split; intros Hurl; try congruence.
  all: rewrite ?seedFromRepo_None; try reflexivity.
  all: match goal with
       | E : GetRepoByName _ _ = Ok ?a |- _ =>
           exists a; destruct (GetRepoByName_found _ _ _ E) as [Hmem Hname]
       end.
  all: repeat split; try assumption; try reflexivity.
  all: apply repository_seedFromRepo.
Qed.

(** X7: a failure of the URL check, of loading the chart, of building
    the client or of creating the scratch directory is returned as it is;
    the failing call is the last one push makes, and the file system is
    as it was. *)
Theorem early_failure_stops_push (p : pushCmd) (fs : gset string)
    (ev : event) (e : err) :
  In ev (events (push ext p fs)) ->
  (exists u, ev = EvParseRequestURI u (Some e))
  \/ (exists n, ev = EvGetChartByName n (Err e))
  \/ (exists c, ev = EvNewClient c (Some e))
  \/ ev = EvTempDir (Err e) ->
  value (push ext p fs) = Err e
  /\ last (events (push ext p fs)) = Some ev
  /\ files (push ext p fs) = fs
  /\ existsb isNetworkCall (events (push ext p fs)) = false.
Proof.
  run_flow.
  all: intros Hin [[u ->]|[[n ->]|[[c ->]| ->]]]; pick_event Hin.
  all: repeat split; reflexivity.
Qed.

(** X8: [OverrideValues] is called exactly when the chart has been loaded
    and at least one [--set] value was given; without [--set] the chart's
    values are left to the packager as they are. *)
Theorem overrides_applied_iff_given (p : pushCmd) (fs : gset string) :
  existsb isOverrideCall (events (push ext p fs))
  = existsb chartLoaded (events (push ext p fs))
    && (0 <? length (overrides p))%nat.
Proof.
  run_flow.
  all: repeat match goal with
              | H : (0 <? length _)%nat = _ |- _ =>
                  rewrite H; clear H
              end; reflexivity.
Qed.

(** A refused upload: push returns what the decoder makes of the body,
    and goes no further. *)
Lemma refused_upload (p : pushCmd) (fs : gset string) (n f : string)
    (resp : Response) (b : string) :
  In (EvUploadChartPackage n f (Ok resp)) (events (push ext p fs)) ->
  StatusCode resp <> 201 ->
  Body resp = Ok b ->
  exists e, getArtifactoryError b (StatusCode resp) = Some e
            /\ value (push ext p fs) = Err e
            /\ existsb isReindex (events (push ext p fs)) = false.
Proof.
  run_flow_keep. all: intros Hin Hst Hb; pick_event Hin.
  all: status_cases_keep; cbn.
  all: try congruence.
  all: try (match goal with
            | E : (StatusCode ?r =? 201)%Z = true |- _ =>
                apply Z.eqb_eq in E; contradiction
            end).
  all: match goal with
       | E1 : Body ?r = Ok ?x, E2 : Body ?r = Ok ?y |- _ =>
           rewrite E1 in E2; inversion E2; subst
       end.
  all: match goal with
       | H1 : getArtifactoryError ?b ?c = _,
         H2 : getArtifactoryError ?b ?c = _ |- _ =>
           rewrite H1 in H2; inversion H2; subst
       end.
  all: eexists; repeat split; reflexivity.
Qed.

(** A reindex request implies that skip-reindex is off. *)
Lemma reindex_needs_not_skipped (p : pushCmd) (fs : gset string) :
  skipReindex p = true ->
  existsb isReindex (events (push ext p fs)) = false.
Proof.
  run_flow. all: intros Hskip; try reflexivity; congruence.
Qed.

(** What is left on the file system by a run that created the scratch
    directory [tmp]: what was there before, and the archive, except for
    what lies under [tmp]. *)
Lemma files_after_push (p : pushCmd) (fs : gset string) (q : string) :
  q ∈ files (push ext p fs) ->
  q ∈ fs
  \/ exists tmp, In (EvCreateChartPackage tmp (Ok q)) (events (push ext p fs))
                 /\ ~ under tmp q.
Proof.
  run_flow. all: intros Hq; try (now left).
  all: apply elem_of_filter in Hq as [Hout Hq].
  all: repeat (apply elem_of_union in Hq as [Hq|Hq]);
    try (apply elem_of_singleton in Hq; subst).
  all: try (now left).
  all: try (exfalso; apply Hout; now left).
  all: right; eexists; split; [cbn; eauto 10 | exact Hout].
Qed.

(** X9: push leaves the file system exactly as it found it, provided
    the packager writes the archive inside the directory it is given and
    [ioutil.TempDir] returns a directory that was not there before. *)
Theorem push_restores_file_system (p : pushCmd) (fs : gset string) :
  (forall c tmp f, helm_CreateChartPackage ext c tmp = Ok f -> under tmp f) ->
  (forall dir pfx tmp,
      ioutil_TempDir ext fs dir pfx = Ok tmp ->
      forall q, q ∈ fs -> ~ under tmp q) ->
  files (push ext p fs) = fs.
Proof.
  intros Hinside Hfresh. apply set_eq. intros q. split.
  - intros Hq. apply files_after_push in Hq as [Hq|(tmp & Hin & Hout)];
      [exact Hq|].
    exfalso. apply Hout. revert Hin. clear Hout.
    run_flow. all: intros Hin; pick_event Hin.
    all: eapply Hinside; eassumption.
  - intros Hq. apply push_keeps_other_files; [exact Hq|].
    intros tmp. run_flow. all: intros Hin; pick_event Hin.
    all: eapply Hfresh; eassumption.
Qed.

End PushCoverage.



(** ** Witnesses for the flow *)


Lemma upload_transport_error_witness :
  value (push unreachableExternals pushToURL ∅) = Err connectionReset
  /\ existsb isReindex (events (push unreachableExternals pushToURL ∅)) = false
  /\ existsb isReadAll (events (push unreachableExternals pushToURL ∅)) = false
  /\ existsb isPrintln (events (push unreachableExternals pushToURL ∅)) = false.
Proof.
  apply (upload_transport_error unreachableExternals pushToURL ∅
           "mychart" scratchArchive connectionReset).
  vm_compute. auto 15.
Defined.

Lemma upload_sends_fresh_package_witness :
  exists tmp,
    In (EvTempDir (Ok tmp)) (events (push obligingExternals pushToURL ∅))
    /\ In (EvCreateChartPackage tmp (Ok scratchArchive))
          (events (push obligingExternals pushToURL ∅)).
Proof.
  apply (upload_sends_fresh_package obligingExternals pushToURL ∅
           "mychart" scratchArchive
           (Ok {| StatusCode := 201; Body := Ok EmptyString |})).
  vm_compute. auto 15.
Defined.

Lemma client_is_built_from_resolved_fields_witness :
  exists entry,
    entry ∈ repositories obligingExternals
    /\ Name entry = repository pushToStable
    /\ stableClient = clientOptions (seedFromRepo (Some entry) pushToStable)
    /\ clientURL stableClient = URL entry.
Proof.
  destruct (client_is_built_from_resolved_fields
              obligingExternals pushToStable ∅ stableClient None) as [_ Hname].
  - vm_compute. auto 15.
  - apply Hname. vm_compute. reflexivity.
Defined.

Lemma early_failure_stops_push_witness :
  value (push strictExternals pushToURL homeFiles) = Err malformedURL
  /\ last (events (push strictExternals pushToURL homeFiles))
     = Some (EvParseRequestURI "https://artifactory/repo" (Some malformedURL))
  /\ files (push strictExternals pushToURL homeFiles) = homeFiles
  /\ existsb isNetworkCall (events (push strictExternals pushToURL homeFiles))
     = false.
Proof.
  apply (early_failure_stops_push strictExternals pushToURL homeFiles
           (EvParseRequestURI "https://artifactory/repo" (Some malformedURL))
           malformedURL).
  - vm_compute. auto.
  - left. eexists. reflexivity.
Defined.

Lemma obliging_packager_inside (c : Chart) (tmp f : string) :
  helm_CreateChartPackage obligingExternals c tmp = Ok f -> under tmp f.
Proof.
  cbn. intros [= <-]. right. rewrite <- append_assoc. apply HasPrefix_append.
Qed.

Lemma obliging_scratch_fresh (dir pfx tmp : string) :
  ioutil_TempDir obligingExternals homeFiles dir pfx = Ok tmp ->
  forall q, q ∈ homeFiles -> ~ under tmp q.
Proof.
  cbn. intros [= <-] q Hq. apply elem_of_singleton in Hq as ->.
  intros [Heq|Hpre]; [discriminate Heq|]. cbn in Hpre.
  unfold HasPrefix in Hpre. cbn in Hpre. discriminate Hpre.
Qed.

Lemma push_restores_file_system_witness :
  files (push obligingExternals pushToURL homeFiles) = homeFiles.
Proof.
  apply (push_restores_file_system obligingExternals pushToURL homeFiles).
  - exact obliging_packager_inside.
  - exact obliging_scratch_fresh.
Defined.

Lemma push_keeps_other_files_witness :
  "/home/user/mychart" ∈ files (push obligingExternals pushToURL homeFiles).
Proof.
  apply (push_keeps_other_files obligingExternals pushToURL homeFiles).
  - apply elem_of_singleton. reflexivity.
  - intros tmp Hin. vm_compute in Hin.
    repeat (destruct Hin as [Hin|Hin]; try discriminate Hin);
      [|contradiction].
    injection Hin as <-.
    intros [Heq|Hpre]; [discriminate Heq | vm_compute in Hpre; discriminate Hpre].
Defined.

(** ** Flags, environment and stored entry, field by field *)

(** X10: for the five fields that a stored entry can supply (username,
    password, CA file, certificate file, key file) the value the client
    gets is the flag's when it is not empty, else the environment
    variable's when that is set and not empty, else the stored entry's. *)
Theorem stored_fields_follow_precedence (env : gmap string string)
    (repo : option Repo) (p : pushCmd) :
  username (resolved env repo p)
  = precedence (username p) (env !! "HELM_REPO_USERNAME") (Username <$> repo)
  /\ password (resolved env repo p)
     = precedence (password p) (env !! "HELM_REPO_PASSWORD") (Password <$> repo)
  /\ caFile (resolved env repo p)
     = precedence (caFile p) (env !! "HELM_REPO_CA_FILE") (CAFile <$> repo)
  /\ certFile (resolved env repo p)
     = precedence (certFile p) (env !! "HELM_REPO_CERT_FILE") (CertFile <$> repo)
  /\ keyFile (resolved env repo p)
     = precedence (keyFile p) (env !! "HELM_REPO_KEY_FILE") (KeyFile <$> repo).
Proof.
  repeat split.
  - apply username_precedence.
  - apply password_precedence.
  - apply caFile_precedence.
  - apply certFile_precedence.
  - apply keyFile_precedence.
Qed.

(** X11: the path, the access token and the API key come from the flag
    or else from the environment; a stored entry never supplies them. *)
Theorem unstored_fields_ignore_entry (env : gmap string string)
    (repo : option Repo) (p : pushCmd) :
  path (resolved env repo p)
  = precedence (path p) (env !! "HELM_REPO_PATH") None
  /\ accessToken (resolved env repo p)
     = precedence (accessToken p) (env !! "HELM_REPO_ACCESS_TOKEN") None
  /\ apiKey (resolved env repo p)
     = precedence (apiKey p) (env !! "HELM_REPO_API_KEY") None.
Proof.
  repeat split.
  - apply path_precedence.
  - apply accessToken_precedence.
  - apply apiKey_precedence.
Qed.

(** X12: when [HELM_REPO_INSECURE] is set, the insecure field is what
    [strconv.ParseBool] makes of it, whatever the flag and the stored
    entry say; a value that [ParseBool] rejects therefore turns the field
    off.  The same holds for [HELM_REPO_SKIP_REINDEX]. *)
Theorem bool_fields_follow_environment (env : gmap string string)
    (repo : option Repo) (p : pushCmd) (v : string) :
  (env !! "HELM_REPO_INSECURE" = Some v ->
   insecureSkipVerify (resolved env repo p) = fst (ParseBool v)
   /\ (snd (ParseBool v) <> None ->
       insecureSkipVerify (resolved env repo p) = false))
  /\ (env !! "HELM_REPO_SKIP_REINDEX" = Some v ->
      skipReindex (resolved env repo p) = fst (ParseBool v)
      /\ (snd (ParseBool v) <> None ->
          skipReindex (resolved env repo p) = false)).
Proof.
  assert (Hrej : snd (ParseBool v) <> None -> fst (ParseBool v) = false).
  { unfold ParseBool. repeat case_bool_decide; cbn; congruence. }
  split; intros Hv.
  - rewrite insecureSkipVerify_resolved, Hv. auto.
  - rewrite skipReindex_resolved, Hv. auto.
Qed.

Lemma bool_fields_follow_environment_witness :
  insecureSkipVerify (resolved envYes (Some stableRepo) pushInsecure) = false.
Proof.
  destruct (bool_fields_follow_environment
              envYes (Some stableRepo) pushInsecure "yes") as [Hins _].
  destruct Hins as [_ Hoff]; [reflexivity|].
  apply Hoff. vm_compute. discriminate.
Defined.

(** Without the variable the flag stands. *)
Lemma bool_fields_without_environment (env : gmap string string)
    (repo : option Repo) (p : pushCmd) :
  (env !! "HELM_REPO_INSECURE" = None ->
   insecureSkipVerify (resolved env repo p) = insecureSkipVerify p)
  /\ (env !! "HELM_REPO_SKIP_REINDEX" = None ->
      skipReindex (resolved env repo p) = skipReindex p).
Proof.
  split; intros Hv.
  - now rewrite insecureSkipVerify_resolved, Hv.
  - now rewrite skipReindex_resolved, Hv.
Qed.

Lemma pushCmd_ext (a b : pushCmd) :
  chartName a = chartName b -> chartVersion a = chartVersion b ->
  appVersion a = appVersion b -> repository a = repository b ->
  path a = path b -> username a = username b -> password a = password b ->
  accessToken a = accessToken b -> apiKey a = apiKey b ->
  caFile a = caFile b -> certFile a = certFile b -> keyFile a = keyFile b ->
  insecureSkipVerify a = insecureSkipVerify b ->
  skipReindex a = skipReindex b -> overrides a = overrides b ->
  a = b.
Proof. destruct a, b; cbn; intros; subst; reflexivity. Qed.

(** What [setFieldsFromEnv] leaves alone. *)
Ltac untouched_by_env :=
  unfold setFieldsFromEnv;
  repeat first
    [ rewrite envBool_other by reflexivity
    | rewrite envString_other by reflexivity ];
  reflexivity.

Lemma orElse_twice (v : string) (next : option string) :
  orElse (orElse v next) next = orElse v next.
Proof.
  unfold orElse. destruct (isEmpty v) eqn:E; cbn [negb].
  - now destruct (isEmpty (default EmptyString next)).
  - now rewrite E.
Qed.

Lemma insecureSkipVerify_from_env (env : gmap string string) (p : pushCmd) :
  insecureSkipVerify (setFieldsFromEnv env p)
  = match env !! "HELM_REPO_INSECURE" with
    | Some v => fst (ParseBool v)
    | None => insecureSkipVerify p
    end.
Proof. apply (insecureSkipVerify_resolved env None p). Qed.

Lemma skipReindex_from_env (env : gmap string string) (p : pushCmd) :
  skipReindex (setFieldsFromEnv env p)
  = match env !! "HELM_REPO_SKIP_REINDEX" with
    | Some v => fst (ParseBool v)
    | None => skipReindex p
    end.
Proof. apply (skipReindex_resolved env None p). Qed.

Lemma envString_unset (env : gmap string string) (name : string)
    (get : pushCmd -> string) (set : string -> pushCmd -> pushCmd)
    (p : pushCmd) :
  env !! name = None -> envString env name get set p = p.
Proof. intros H. unfold envString. now rewrite H. Qed.

Lemma envBool_unset (env : gmap string string) (name : string)
    (set : bool -> pushCmd -> pushCmd) (p : pushCmd) :
  env !! name = None -> envBool env name set p = p.
Proof. intros H. unfold envBool. now rewrite H. Qed.

(** X13: the environment never changes the chart name, the version and
    app-version overrides, the repository argument or the [--set]
    values. *)
Theorem environment_leaves_chart_and_target (env : gmap string string)
    (p : pushCmd) :
  chartName (setFieldsFromEnv env p) = chartName p
  /\ chartVersion (setFieldsFromEnv env p) = chartVersion p
  /\ appVersion (setFieldsFromEnv env p) = appVersion p
  /\ repository (setFieldsFromEnv env p) = repository p
  /\ overrides (setFieldsFromEnv env p) = overrides p.
Proof. repeat split; untouched_by_env. Qed.

(** X16: an environment in which none of the ten [HELM_REPO_...]
    variables is set, whatever else it holds, leaves every field as the
    flags set it. *)
Theorem unrelated_environment_changes_nothing (env : gmap string string)
    (p : pushCmd) :
  Forall (fun n => env !! n = None) fallbackVariables ->
  setFieldsFromEnv env p = p.
Proof.
  unfold fallbackVariables. intros H.
  repeat (apply Forall_cons in H as [? H]).
  unfold setFieldsFromEnv.
  now rewrite !envBool_unset, !envString_unset by assumption.
Qed.

Lemma unrelated_environment_changes_nothing_witness :
  setFieldsFromEnv {[ "HOME" := "/root" ]} pushInsecure = pushInsecure.
Proof.
  apply (unrelated_environment_changes_nothing {[ "HOME" := "/root" ]}
           pushInsecure).
  unfold fallbackVariables. repeat constructor.
Defined.

(** X14: consulting the environment twice changes nothing more. *)
Theorem setFieldsFromEnv_idempotent (env : gmap string string) (p : pushCmd) :
  setFieldsFromEnv env (setFieldsFromEnv env p) = setFieldsFromEnv env p.
Proof.
  apply pushCmd_ext.
  1-4, 15: untouched_by_env.
  - now rewrite !path_from_env, orElse_twice.
  - now rewrite !username_from_env, orElse_twice.
  - now rewrite !password_from_env, orElse_twice.
  - now rewrite !accessToken_from_env, orElse_twice.
  - now rewrite !apiKey_from_env, orElse_twice.
  - now rewrite !caFile_from_env, orElse_twice.
  - now rewrite !certFile_from_env, orElse_twice.
  - now rewrite !keyFile_from_env, orElse_twice.
  - rewrite !insecureSkipVerify_from_env.
    now destruct (env !! "HELM_REPO_INSECURE").
  - rewrite !skipReindex_from_env.
    now destruct (env !! "HELM_REPO_SKIP_REINDEX").
Qed.

(** X15: the repository argument is taken for a URL exactly when it
    begins with [http://] or [https://], in lower case; anything else,
    [HTTP://...] and [ftp://...] included, is taken for a name. *)
Theorem url_arguments (s : string) :
  looksLikeURL s = HasPrefix s "http://" || HasPrefix s "https://".
Proof. apply looksLikeURL_prefix. Qed.

Example url_arguments_examples :
  looksLikeURL "https://artifactory/repo" = true
  /\ looksLikeURL "http://" = true
  /\ looksLikeURL "HTTP://artifactory/repo" = false
  /\ looksLikeURL "ftp://artifactory/repo" = false
  /\ looksLikeURL "httpss://artifactory/repo" = false
  /\ looksLikeURL " https://artifactory/repo" = false
  /\ looksLikeURL EmptyString = false.
Proof. repeat split; vm_compute; reflexivity. Qed.

(** ** The command as a whole *)



Lemma RunE_two_arguments (ext : Externals) (p : pushCmd) (a0 a1 : string)
    (fs : gset string) :
  RunE ext p [a0; a1] fs
  = push ext (setFieldsFromEnv (environ ext)
                (set_repository a1 (set_chartName a0 p))) fs.
Proof. reflexivity. Qed.

Lemma getArtifactoryError_prefixed (b : string) (code : Z) (e : err) :
  getArtifactoryError b code = Some e ->
  HasPrefix (Error e) (itoa code +:+ ": ") = true.
Proof.
  destruct (getArtifactoryError_cases b code)
    as [[_ H]|(r & x & es & _ & _ & H)]; rewrite H; intros [= <-];
    unfold parseFailure; cbn [Error].
  - change (": could not properly parse response JSON: " +:+ b)
      with (": " +:+ ("could not properly parse response JSON: " +:+ b)).
    rewrite <- append_assoc. apply HasPrefix_append.
  - rewrite <- append_assoc. apply HasPrefix_append.
Qed.

(** X18: when the server answers the upload with a status other than
    201 and a readable body, the command exits with status 1, the last
    line it prints is the decoded error, which begins with that status
    code, and no reindex request has been made. *)
Theorem refused_upload_exits_1 (ext : Externals) (p : pushCmd)
    (args : list string) (fs : gset string) (n f : string)
    (resp : Response) (b : string) :
  In (EvUploadChartPackage n f (Ok resp)) (events (RunE ext p args fs)) ->
  StatusCode resp <> 201 ->
  Body resp = Ok b ->
  exists e,
    getArtifactoryError b (StatusCode resp) = Some e
    /\ main ext p args fs
       = (1, files (RunE ext p args fs),
          (events (RunE ext p args fs) ++ [EvPrintln (Error e)])%list)
    /\ HasPrefix (Error e) (itoa (StatusCode resp) +:+ ": ") = true
    /\ existsb isReindex (events (RunE ext p args fs)) = false.
Proof.
  intros Hin Hst Hb.
  destruct args as [|a0 [|a1 [|a2 args]]]; try contradiction.
  rewrite RunE_two_arguments in *.
  destruct (refused_upload _ _ _ _ _ _ _ Hin Hst Hb) as (e & Hdec & Hval & Hre).
  exists e. repeat split; try assumption.
  - unfold main. rewrite RunE_two_arguments, Hval. reflexivity.
  - eapply getArtifactoryError_prefixed. eassumption.
Qed.

Lemma refused_upload_exits_1_witness :
  exists e,
    getArtifactoryError (envelope409 "conflict") (StatusCode conflictResponse)
    = Some e
    /\ main refusingExternals flagDefaults
         ["mychart"; "https://artifactory/repo"] ∅
       = (1, files (RunE refusingExternals flagDefaults
                      ["mychart"; "https://artifactory/repo"] ∅),
          (events (RunE refusingExternals flagDefaults
                     ["mychart"; "https://artifactory/repo"] ∅)
           ++ [EvPrintln (Error e)])%list)
    /\ HasPrefix (Error e) (itoa (StatusCode conflictResponse) +:+ ": ") = true
    /\ existsb isReindex
         (events (RunE refusingExternals flagDefaults
                    ["mychart"; "https://artifactory/repo"] ∅)) = false.
Proof.
  apply (refused_upload_exits_1 refusingExternals flagDefaults
           ["mychart"; "https://artifactory/repo"] ∅
           "mychart" scratchArchive conflictResponse (envelope409 "conflict")).
  - vm_compute. auto 15.
  - vm_compute. discriminate.
  - reflexivity.
Defined.

(** X19: with [HELM_REPO_SKIP_REINDEX] set to a value that
    [strconv.ParseBool] reads as true, the command makes no reindex
    request, whether or not [--skip-reindex] was given. *)
Theorem environment_can_skip_reindex (ext : Externals) (p : pushCmd)
    (args : list string) (fs : gset string) (v : string) :
  environ ext !! "HELM_REPO_SKIP_REINDEX" = Some v ->
  fst (ParseBool v) = true ->
  existsb isReindex (events (RunE ext p args fs)) = false.
Proof.
  intros Hv Htrue.
  destruct args as [|a0 [|a1 [|a2 args]]]; try reflexivity.
  rewrite RunE_two_arguments. apply reindex_needs_not_skipped.
  now rewrite skipReindex_from_env, Hv.
Qed.

Lemma environment_can_skip_reindex_witness :
  existsb isReindex
    (events (RunE skippingExternals flagDefaults
               ["mychart"; "https://artifactory/repo"] ∅)) = false.
Proof.
  apply (environment_can_skip_reindex skippingExternals flagDefaults
           ["mychart"; "https://artifactory/repo"] ∅ "true");
    reflexivity.
Defined.

(** ** The response handlers, call by call *)

(** X20: each handler closes the response body last, on every path, and
    prints exactly when it succeeds; the upload handler reads the body
    only for a status other than 201, the reindex handler always. *)
Theorem handlers_close_the_body (resp : Response) (fs : gset string) :
  last (events (handlePushResponse resp fs)) = Some EvBodyClose
  /\ last (events (handleReindexResponse resp fs)) = Some EvBodyClose
  /\ existsb isPrintln (events (handlePushResponse resp fs))
     = isOk (value (handlePushResponse resp fs))
  /\ existsb isPrintln (events (handleReindexResponse resp fs))
     = isOk (value (handleReindexResponse resp fs))
  /\ existsb isReadAll (events (handlePushResponse resp fs))
     = negb (StatusCode resp =? 201)%Z
  /\ existsb isReadAll (events (handleReindexResponse resp fs)) = true.
Proof.
  unfold handlePushResponse, handleReindexResponse, defer, bind, call,
    returnError, tell, ret, fail.
  destruct (Body resp) as [b|e]; cbn;
    destruct (StatusCode resp =? 201)%Z; destruct (StatusCode resp =? 200)%Z;
    cbn;
    try (destruct (getArtifactoryError_is_error b (StatusCode resp))
           as (msg & ->));
    cbn; repeat split; reflexivity.
Qed.

(** ** The decoder, beyond single bodies *)

Lemma length_append (a b : string) :
  String.length (a +:+ b) = (String.length a + String.length b)%nat.
Proof.
  induction a as [|x a IH]; [reflexivity|].
  change (S (String.length (a +:+ b)) = S (String.length a + String.length b)).
  now rewrite IH.
Qed.

Lemma append_cancel_r (a b r : string) : a +:+ r = b +:+ r -> a = b.
Proof.
  revert b. induction a as [|x a IH]; intros [|y b] H.
  - reflexivity.
  - apply (f_equal String.length) in H.
    rewrite !length_append in H. cbn [String.length] in H. lia.
  - apply (f_equal String.length) in H.
    rewrite !length_append in H. cbn [String.length] in H. lia.
  - change (String x (a +:+ r) = String y (b +:+ r)) in H.
    injection H as -> H. f_equal. now apply IH.
Qed.

Lemma itoa_inj (a b : Z) : itoa a = itoa b -> a = b.
Proof.
  intros H. pose proof (itoa_read_back a) as Ha.
  rewrite H, itoa_read_back in Ha. now injection Ha.
Qed.

(** X21: the error tells the status codes apart: for one and the same
    body, different status codes never give the same error. *)
Theorem different_codes_different_errors (b : string) (c1 c2 : Z) :
  c1 <> c2 -> getArtifactoryError b c1 <> getArtifactoryError b c2.
Proof.
  intros Hne Heq. apply Hne. apply itoa_inj.
  destruct (getArtifactoryError_cases b c1)
    as [[Hno H1]|(r & e & es & Hr & He & H1)];
    destruct (getArtifactoryError_cases b c2)
      as [[Hno' H2]|(r' & e' & es' & Hr' & He' & H2)].
  - rewrite H1, H2 in Heq. injection Heq as Heq.
    now apply append_cancel_r in Heq.
  - destruct Hno. exists r', e', es'. auto.
  - destruct Hno'. exists r, e, es. auto.
  - rewrite Hr in Hr'. injection Hr' as <-. rewrite He in He'.
    injection He' as <- <-.
    rewrite H1, H2 in Heq. injection Heq as Heq.
    now apply append_cancel_r in Heq.
Qed.

Lemma different_codes_different_errors_witness :
  getArtifactoryError (envelope409 "conflict") 409
  <> getArtifactoryError (envelope409 "conflict") 500.
Proof.
  apply (different_codes_different_errors (envelope409 "conflict") 409 500).
  discriminate.
Defined.

(** *** Plain messages come back as they were sent *)

Lemma list_ascii_of_string_append (a b : string) :
  list_ascii_of_string (a +:+ b)
  = (list_ascii_of_string a ++ list_ascii_of_string b)%list.
Proof.
  induction a as [|x a IH]; [reflexivity|].
  change (x :: list_ascii_of_string (a +:+ b)
          = x :: (list_ascii_of_string a ++ list_ascii_of_string b)%list).
  now rewrite IH.
Qed.

Lemma lex_feed (a b : list ascii) (st : lexState) (out : list token) :
  lex st out (a ++ b)
  = match lexFeed st out a with
    | Some (st', out') => lex st' out' b
    | None => None
    end.
Proof.
  revert st out. induction a as [|c a IH]; intros st out; [reflexivity|].
  cbn [app lex lexFeed]. destruct (lexStep st out c) as [[st' out']|];
    [apply IH | reflexivity].
Qed.

Lemma plainByte_facts (c : ascii) :
  plainByte c = true ->
  byte_eqb c dquote = false /\ byte_eqb c "\" = false
  /\ (byteval c <? 32)%N = false /\ (byteval c <? 128)%N = true.
Proof.
  unfold plainByte, in_range. intros H.
  apply andb_true_iff in H as [H Hbs]. apply andb_true_iff in H as [H Hq].
  apply andb_true_iff in H as [Hlo Hhi].
  apply negb_true_iff in Hbs, Hq.
  apply N.leb_le in Hlo, Hhi.
  repeat split; try assumption.
  - apply N.ltb_ge. exact Hlo.
  - apply N.ltb_lt. lia.
Qed.

Lemma lexFeed_plain (lm acc : list ascii) (out : list token) :
  Forall (fun c => plainByte c = true) lm ->
  lexFeed (LInString acc false) out lm
  = Some (LInString (rev lm ++ acc) false, out).
Proof.
  revert acc. induction lm as [|c lm IH]; intros acc H; [reflexivity|].
  apply Forall_cons in H as [Hc H].
  destruct (plainByte_facts c Hc) as (Hq & Hbs & Hlo & _).
  cbn [lexFeed lexStep]. rewrite Hq, Hbs, Hlo, (IH (c :: acc) H).
  cbn [rev]. now rewrite <- app_assoc.
Qed.

Lemma unquoteBytes_plain (lm : list ascii) :
  Forall (fun c => plainByte c = true) lm ->
  unquoteBytes 0 lm = Some lm.
Proof.
  induction lm as [|c lm IH]; intros H; [reflexivity|].
  apply Forall_cons in H as [Hc H].
  destruct (plainByte_facts c Hc) as (Hq & Hbs & Hlo & Hhi).
  cbn [unquoteBytes]. rewrite Hbs, Hq, Hlo, Hhi. cbn [orb].
  now rewrite (IH H).
Qed.

Lemma envelope409_shape (m : string) :
  envelope409 m
  = envelopeHead409 +:+ String dquote (m +:+ String dquote "}]}").
Proof.
  transitivity
    (envelopeHead409 +:+ (String dquote (m +:+ String dquote EmptyString) +:+ "}]}")).
  - reflexivity.
  - f_equal.
    change (String dquote ((m +:+ String dquote EmptyString) +:+ "}]}")
            = String dquote (m +:+ String dquote "}]}")).
    f_equal. apply append_assoc.
Qed.

Lemma lex_open_quote (out : list token) (bs : list ascii) :
  lex LIdle out (dquote :: bs) = lex (LInString [] false) out bs.
Proof. reflexivity. Qed.

Lemma lex_close_quote (acc : list ascii) (out : list token) (bs : list ascii) :
  lex (LInString acc false) out (dquote :: bs)
  = lex LIdle (TString (rev acc) :: out) bs.
Proof. reflexivity. Qed.

Lemma lex_envelope409 (m : string) :
  plain m ->
  lex LIdle [] (list_ascii_of_string (envelope409 m))
  = Some [TLBrace; TString (list_ascii_of_string "errors"); TColon;
          TLBracket; TLBrace; TString (list_ascii_of_string "status");
          TColon; TWord (list_ascii_of_string "409"); TComma;
          TString (list_ascii_of_string "message"); TColon;
          TString (list_ascii_of_string m); TRBrace; TRBracket; TRBrace].
Proof.
  intros Hm. rewrite envelope409_shape, list_ascii_of_string_append.
  rewrite lex_feed.
  replace (lexFeed LIdle [] (list_ascii_of_string envelopeHead409))
    with (Some (LIdle,
                [TColon; TString (list_ascii_of_string "message"); TComma;
                 TWord (list_ascii_of_string "409"); TColon;
                 TString (list_ascii_of_string "status"); TLBrace;
                 TLBracket; TColon; TString (list_ascii_of_string "errors");
                 TLBrace]))
    by (vm_compute; reflexivity).
  change (list_ascii_of_string (String dquote (m +:+ String dquote "}]}")))
    with (dquote :: list_ascii_of_string (m +:+ String dquote "}]}")).
  rewrite list_ascii_of_string_append.
  rewrite lex_open_quote, lex_feed, (lexFeed_plain _ _ _ Hm).
  change (list_ascii_of_string (String dquote "}]}"))
    with (dquote :: list_ascii_of_string "}]}").
  rewrite lex_close_quote, app_nil_r, rev_involutive.
  reflexivity.
Qed.

Lemma unquote_plain (m : string) :
  plain m -> unquote (list_ascii_of_string m) = Some m.
Proof.
  intros Hm. unfold unquote. rewrite (unquoteBytes_plain _ Hm).
  cbn [fmap option_fmap option_map]. now rewrite string_of_list_ascii_of_string.
Qed.

Lemma parse_envelope409 (m : string) :
  plain m ->
  parseJSON (envelope409 m)
  = Some (JObject
            [("errors",
              JArray
                [JObject [("status", JNumber (list_ascii_of_string "409"));
                          ("message", JString m)]])]).
Proof.
  intros Hm. unfold parseJSON. rewrite (lex_envelope409 m Hm).
  cbn [parseTokens parseStep beginValue beginKey deliver].
  replace (unquote (list_ascii_of_string "errors")) with (Some "errors")
    by (vm_compute; reflexivity).
  cbn [parseTokens parseStep beginValue beginKey deliver].
  replace (unquote (list_ascii_of_string "status")) with (Some "status")
    by (vm_compute; reflexivity).
  cbn [parseTokens parseStep beginValue beginKey deliver].
  replace (word_value (list_ascii_of_string "409"))
    with (Some (JNumber (list_ascii_of_string "409")))
    by (vm_compute; reflexivity).
  cbn [parseTokens parseStep beginValue beginKey deliver].
  replace (unquote (list_ascii_of_string "message")) with (Some "message")
    by (vm_compute; reflexivity).
  cbn [parseTokens parseStep beginValue beginKey deliver].
  rewrite (unquote_plain m Hm).
  reflexivity.
Qed.

(** X22: a message of plain characters (printable ASCII without the
    double quote and the backslash) comes back exactly as the server sent
    it: the body [{"errors":[{"status":409,"message":m}]}] decodes to the
    one record with the message [m], and the error reads the status code,
    a colon, a space and [m], whatever the status code. *)
Theorem plain_message_comes_back (m : string) (code : Z) :
  plain m ->
  json_Unmarshal (envelope409 m)
  = Ok {| Errors := [{| Status := 409; Message := m |}] |}
  /\ getArtifactoryError (envelope409 m) code
     = Some (ErrorString (itoa code +:+ ": " +:+ m)).
Proof.
  intros Hm.
  assert (Hu : json_Unmarshal (envelope409 m)
               = Ok {| Errors := [{| Status := 409; Message := m |}] |}).
  { unfold json_Unmarshal. rewrite (parse_envelope409 m Hm). reflexivity. }
  split; [exact Hu|].
  unfold getArtifactoryError. rewrite Hu. reflexivity.
Qed.

Lemma plain_message_comes_back_witness :
  json_Unmarshal (envelope409 "a chart with this version already exists")
  = Ok {| Errors := [{| Status := 409;
                        Message := "a chart with this version already exists" |}] |}
  /\ getArtifactoryError
       (envelope409 "a chart with this version already exists") 409
     = Some (ErrorString
               (itoa 409 +:+ ": " +:+ "a chart with this version already exists")).
Proof.
  apply (plain_message_comes_back
           "a chart with this version already exists" 409).
  unfold plain. repeat constructor.
Defined.

(** ** The usage text *)

Lemma Replace1_unfold (s old new : string) :
  Replace1 s old new
  = if String.prefix old s
    then new +:+ String.substring (String.length old)
                   (String.length s - String.length old) s
    else match s with
         | EmptyString => EmptyString
         | String c s' => String c (Replace1 s' old new)
         end.
Proof. destruct s; reflexivity. Qed.

Lemma substring_whole (s : string) :
  String.substring 0 (String.length s) s = s.
Proof.
  induction s as [|c s IH]; [reflexivity|].
  cbn [String.length String.substring]. now rewrite IH.
Qed.

Lemma substring_after (a b : string) :
  String.substring (String.length a)
    (String.length (a +:+ b) - String.length a) (a +:+ b) = b.
Proof.
  induction a as [|c a IH].
  - change (EmptyString +:+ b) with b. cbn [String.length].
    rewrite Nat.sub_0_r. apply substring_whole.
  - change (String c a +:+ b) with (String c (a +:+ b)).
    cbn [String.length String.substring Nat.sub]. exact IH.
Qed.

Lemma Replace1_at_head (old rest new : string) :
  Replace1 (old +:+ rest) old new = new +:+ rest.
Proof.
  rewrite Replace1_unfold, prefix_append. now rewrite substring_after.
Qed.

(** [strings.Replace] with the count 1 replaces the first occurrence:
    when the first byte of [old] does not occur before it, what comes
    before and after stays. *)
Lemma Replace1_first_occurrence (a rest new : string) (c : ascii)
    (old' : string) :
  ~ In c (list_ascii_of_string a) ->
  Replace1 (a +:+ String c old' +:+ rest) (String c old') new
  = a +:+ new +:+ rest.
Proof.
  induction a as [|x a IH]; intros Hc.
  - change (Replace1 (String c old' +:+ rest) (String c old') new
            = new +:+ rest).
    apply Replace1_at_head.
  - change (String x a +:+ String c old' +:+ rest)
      with (String x (a +:+ String c old' +:+ rest)).
    rewrite Replace1_unfold. cbn [String.prefix].
    destruct (ascii_dec c x) as [->|Hne].
    + destruct Hc. now left.
    + change (String x a +:+ new +:+ rest) with (String x (a +:+ new +:+ rest)).
      f_equal. apply IH. intros Hin. apply Hc. now right.
Qed.

(** X23: the usage text is the template with its one placeholder line
    replaced by the version; the heading before it and the examples after
    it are left as they are, even for a version that itself contains the
    placeholder. *)
Theorem getUsage_inserts_version (version : string) :
  getUsage version = usageHead +:+ version +:+ usageExamples.
Proof.
  unfold getUsage, globalUsage.
  apply (Replace1_first_occurrence usageHead usageExamples version "%" "version%").
  intros Hin. vm_compute in Hin.
  repeat (destruct Hin as [Hin|Hin]; [discriminate Hin|]). exact Hin.
Qed.
